(** * go-onvif: capability normalisation of [Device.GetCapabilities]

    A shallow embedding of [device.go].  The decoded SOAP reply is a tree of
    Go [interface{}] values; [GetCapabilities] navigates it with
    [ValueForPath] and assembles a [DeviceCapabilities] value.

    Conventions of the embedding:
    - a Go multiple return [(T, error)] is a pair [T * error], with
      [error := option error_value] and [None] for [nil];
    - a Go [map[string]V] value is [option (gmap string V)]: [None] is the
      [nil] map, [Some m] an initialised one ([make]);
    - [for key, value := range m] visits every entry of [m] once, in an order
      Go leaves unspecified; the order is a parameter [rangeOrder] of the
      model, constrained only to enumerate the entries of the map. *)

From Stdlib Require Import SpecFloat Ascii String ZArith.
From stdpp Require Import gmap strings list fin_maps.

Local Set Warnings "-register-all".
Local Open Scope string_scope.

(** ** The part of Go's [strings] package that [device.go] calls *)

Module GoStrings.

(** One byte of [strings.ToLower]: ['A'..'Z'] move to ['a'..'z'], every
    other byte stays.  This is the ASCII path of the Go function; the letters
    of the two literals the program compares against (["true"], ["xaddr"])
    are the lower-case image of ASCII letters only. *)
Definition lowerByte (c : ascii) : ascii :=
  let n := nat_of_ascii c in
  if (65 <=? n)%nat && (n <=? 90)%nat then ascii_of_nat (n + 32) else c.

Fixpoint ToLower (s : string) : string :=
  match s with
  | EmptyString => EmptyString
  | String c rest => String (lowerByte c) (ToLower rest)
  end.

(** The replacement loop of [strings.Replace] for a non-empty [old]: scan
    left to right, replace each non-overlapping occurrence while the budget
    [n] is not exhausted ([n < 0] never is).  [skip] counts the bytes of a
    matched occurrence that are still to be dropped. *)
Fixpoint replaceScan (old new : string) (n : Z) (skip : nat) (s : string) : string :=
  match s with
  | EmptyString => EmptyString
  | String c rest =>
      match skip with
      | S k => replaceScan old new n k rest
      | O =>
          if (n =? 0)%Z then s
          else if String.prefix old s
               then new +:+ replaceScan old new (n - 1) (String.length old - 1) rest
               else String c (replaceScan old new n 0 rest)
      end
  end.

(** [strings.Replace(s, old, new, n)], for [old] non-empty (both call sites
    pass a literal: ["WS"] and ["_"]). *)
Definition Replace (s old new : string) (n : Z) : string :=
  if String.eqb old new || (n =? 0)%Z then s else replaceScan old new n 0 s.

(** [strings.Split(s, ".")]. *)
Fixpoint splitDot (s : string) : list string :=
  match s with
  | EmptyString => [EmptyString]
  | String c rest =>
      if Ascii.eqb c "."%char then EmptyString :: splitDot rest
      else match splitDot rest with
           | seg :: segs => String c seg :: segs
           | [] => [String c EmptyString]
           end
  end.

End GoStrings.

Import GoStrings.

(** ** Data model *)

(** A decoded node, Go's [interface{}] restricted to what a decoder yields:
    [nil], [bool], [float64] (an IEEE 754 value, [spec_float]), [string],
    [[]interface{}] and [map[string]interface{}]. *)
Inductive iface : Type :=
  | INil
  | IBool (b : bool)
  | INum (x : spec_float)
  | IStr (s : string)
  | IList (l : list iface)
  | IMap (m : gmap string iface).

(** Indexing a Go map at a missing key gives the zero value, [nil] here:
    [m[k]] is [m !!! k]. *)
#[export] Instance iface_inhabited : Inhabited iface := populate INil.

(** The decoded reply, a [map[string]interface{}] at the root. *)
Abbreviation Map := (gmap string iface) (only parsing).

Inductive error_value : Type :=
  | NotFoundError (path : string)
  | TransportError (msg : string).

Abbreviation error := (option error_value) (only parsing).
Abbreviation nil := (@None error_value) (only parsing).

(** A Go [map[string]V]; [None] is the [nil] map. *)
Abbreviation GoMap V := (option (gmap string V)) (only parsing).

(** Modelled from the spec: the struct declarations of [NetworkCapabilities]
    and [DeviceCapabilities] are not in [device.go]; the fields are those of
    section 3, with the names and types [GetCapabilities] assigns to. *)
Record NetworkCapabilities : Type := {
  DynDNS : bool;
  IPFilter : bool;
  IPVersion6 : bool;
  ZeroConfig : bool;
  Extension : GoMap bool;
}.

Record DeviceCapabilities : Type := {
  Network : NetworkCapabilities;
  Events : GoMap bool;
  Streaming : GoMap bool;
  PTZ : bool;
}.

(** The composite literals [NetworkCapabilities{}] and
    [DeviceCapabilities{}]: every field at its zero value. *)
Definition NetworkCapabilities_zero : NetworkCapabilities :=
  {| DynDNS := false; IPFilter := false; IPVersion6 := false;
     ZeroConfig := false; Extension := None |}.

Definition DeviceCapabilities_zero : DeviceCapabilities :=
  {| Network := NetworkCapabilities_zero; Events := None;
     Streaming := None; PTZ := false |}.

(** Modelled from the spec: [Device] and [SOAP] are declared outside
    [device.go]; only the fields the file reads or writes are kept. *)
Record Device : Type := { XAddr : string }.

Record SOAP : Type := { Body : string; XMLNs : list string }.

Definition dquote : string := String (ascii_of_nat 34) EmptyString.

Definition deviceXMLNs : list string :=
  [ "xmlns:tds=" +:+ dquote +:+ "http://www.onvif.org/ver10/device/wsdl" +:+ dquote;
    "xmlns:tt=" +:+ dquote +:+ "http://www.onvif.org/ver10/schema" +:+ dquote ].

(** ** Path navigation *)

(** Modelled from the spec: [ValueForPath] belongs to the decoding library,
    not to [device.go].  Section 4.2 ([valueAt]): split the path on [.];
    from the root, require the current node to be a mapping and look the
    next segment up; fail with [NotFoundError] the first time a segment is
    missing or the current node is not a mapping; return whatever node sits
    at the last segment. *)
Fixpoint walk (path : string) (segs : list string) (node : iface) : iface * error :=
  match segs with
  | [] => (node, nil)
  | seg :: rest =>
      match node with
      | IMap m =>
          match m !! seg with
          | Some child => walk path rest child
          | None => (INil, Some (NotFoundError path))
          end
      | _ => (INil, Some (NotFoundError path))
      end
  end.

Definition ValueForPath (mv : Map) (path : string) : iface * error :=
  walk path (splitDot path) (IMap mv).

(** ** Coercion helpers *)

Definition interfaceToString (src : iface) : string :=
  match src with
  | IStr str => str
  | _ => ""
  end.

Definition interfaceToBool (src : iface) : bool :=
  let strBool := interfaceToString src in
  String.eqb (ToLower strBool) "true".

(** ** GetCapabilities *)

(** The local [envelopeBodyPath] of [GetCapabilities], and the request the
    function builds, named so that statements can refer to them. *)
Definition envelopeBodyPath : string :=
  "Envelope.Body.GetCapabilitiesResponse.Capabilities".

Definition capabilitiesRequest : SOAP :=
  {| XMLNs := deviceXMLNs;
     Body := "<tds:GetCapabilities></tds:Category></tds:GetCapabilities>" |}.

Section Endpoint.

(** [soap.SendRequest(xaddr)]: the transport, defined outside [device.go].
    It yields the decoded reply or an error. *)
Variable SendRequest : SOAP → string → Map * error.

(** The order in which a [range] loop visits the entries of a map. *)
Variable rangeOrder : gmap string iface → list (string * iface).

(** [for key, value := range m { acc = body acc key value }]. *)
Definition range {A : Type} (m : gmap string iface) (init : A)
    (body : A → string → iface → A) : A :=
  foldl (λ acc kv, body acc kv.1 kv.2) init (rangeOrder m).

Definition GetCapabilities (device : Device) : DeviceCapabilities * error :=
  (* Create SOAP *)
  let soap := {| XMLNs := deviceXMLNs;
                 Body := "<tds:GetCapabilities></tds:Category></tds:GetCapabilities>" |} in
  (* Send SOAP request *)
  match SendRequest soap (XAddr device) with
  | (_, Some err) => (DeviceCapabilities_zero, Some err)
  | (response, None) =>
  (* Get network capabilities *)
  match ValueForPath response (envelopeBodyPath +:+ ".Device.Network") with
  | (_, Some err) => (DeviceCapabilities_zero, Some err)
  | (ifaceNetCap, None) =>
  let netCap :=
    match ifaceNetCap with
    | IMap mapNetCap =>
        {| DynDNS := interfaceToBool (mapNetCap !!! "DynDNS");
           IPFilter := interfaceToBool (mapNetCap !!! "IPFilter");
           IPVersion6 := interfaceToBool (mapNetCap !!! "IPVersion6");
           ZeroConfig := interfaceToBool (mapNetCap !!! "ZeroConfiguration");
           Extension :=
             Some match mapNetCap !!! "Extension" with
                  | IMap mapNetExtension =>
                      range mapNetExtension ∅ (λ extension key value,
                        <[key := interfaceToBool value]> extension)
                  | _ => ∅
                  end |}
    | _ => NetworkCapabilities_zero
    end in
  (* Get events capabilities *)
  match ValueForPath response (envelopeBodyPath +:+ ".Events") with
  | (_, Some err) => (DeviceCapabilities_zero, Some err)
  | (ifaceEventsCap, None) =>
  let eventsCap : gmap string bool :=
    match ifaceEventsCap with
    | IMap mapEventsCap =>
        range mapEventsCap ∅ (λ eventsCap key value,
          if String.eqb (ToLower key) "xaddr" then eventsCap
          else
            let key := Replace key "WS" "" 1 in
            <[key := interfaceToBool value]> eventsCap)
    | _ => ∅
    end in
  (* Get events capabilities (sic: the streaming capabilities) *)
  match ValueForPath response (envelopeBodyPath +:+ ".Media.StreamingCapabilities") with
  | (_, Some err) => (DeviceCapabilities_zero, Some err)
  | (ifaceStreamingCap, None) =>
  let streamingCap : gmap string bool :=
    match ifaceStreamingCap with
    | IMap mapStreamingCap =>
        range mapStreamingCap ∅ (λ streamingCap key value,
          let key := Replace key "_" " " (-1) in
          <[key := interfaceToBool value]> streamingCap)
    | _ => ∅
    end in
  (* Get PTZ capabilities *)
  let ptzCap :=
    match ValueForPath response (envelopeBodyPath +:+ ".PTZ") with
    | (_, Some _) => false
    | (_, None) => true
    end in
  (* Create final result *)
  let deviceCapabilities :=
    {| Network := netCap;
       Events := Some eventsCap;
       Streaming := Some streamingCap;
       PTZ := ptzCap |} in
  (deviceCapabilities, nil)
  end end end end.

End Endpoint.

Arguments range _ {A} m init body /.

(** The four paths [GetCapabilities] navigates. *)
Abbreviation networkPath := (envelopeBodyPath +:+ ".Device.Network") (only parsing).
Abbreviation eventsPath := (envelopeBodyPath +:+ ".Events") (only parsing).
Abbreviation streamingPath :=
  (envelopeBodyPath +:+ ".Media.StreamingCapabilities") (only parsing).
Abbreviation ptzPath := (envelopeBodyPath +:+ ".PTZ") (only parsing).

(** ** Concrete replies and iteration orders used by the examples *)

(** A reply whose [Capabilities] branch is [caps]. *)
Definition replyOf (caps : gmap string iface) : Map :=
  {[ "Envelope" := IMap {[ "Body" := IMap {[ "GetCapabilitiesResponse" :=
       IMap {[ "Capabilities" := IMap caps ]} ]} ]} ]}.

(** A transport that always delivers [response]. *)
Definition deliver (response : Map) : SOAP → string → Map * error :=
  λ _ _, (response, nil).

(** Two admissible iteration orders: the canonical enumeration of the map
    and its mirror image. *)
Definition forwardOrder : gmap string iface → list (string * iface) :=
  map_to_list.

Definition backwardOrder : gmap string iface → list (string * iface) :=
  λ m, reverse (map_to_list m).

Definition camera : Device := {| XAddr := "http://192.168.1.10/onvif/device_service" |}.

(** The end-to-end scenario of section 8. *)
Definition scenarioNetwork : gmap string iface :=
  <["DynDNS" := IStr "false"]> (<["IPFilter" := IStr "true"]>
  (<["IPVersion6" := IStr "false"]> (<["ZeroConfiguration" := IStr "true"]>
  {["Extension" := IMap {["Foo" := IStr "true"]}]}))).

Definition scenarioEvents : gmap string iface :=
  <["WSPullPoint" := IStr "true"]> {["XAddr" := IStr "http://x"]}.

Definition scenarioStreaming : gmap string iface :=
  {["RTP_TCP" := IStr "true"]}.

Definition scenario : gmap string iface :=
  <["Device" := IMap {["Network" := IMap scenarioNetwork]}]>
  (<["Events" := IMap scenarioEvents]>
  {["Media" := IMap {["StreamingCapabilities" := IMap scenarioStreaming]}]}).

Definition scenarioCapabilities : DeviceCapabilities :=
  {| Network := {| DynDNS := false; IPFilter := true; IPVersion6 := false;
                   ZeroConfig := true; Extension := Some {["Foo" := true]} |};
     Events := Some {["PullPoint" := true]};
     Streaming := Some {["RTP TCP" := true]};
     PTZ := false |}.

(** A [Capabilities] branch with the three mandatory branches given as
    nodes, and optionally a [PTZ] node. *)
Definition capabilitiesOf (network events streaming : iface)
    (ptz : option iface) : gmap string iface :=
  let base : gmap string iface :=
    <["Device" := IMap {["Network" := network]}]>
    (<["Events" := events]>
    {["Media" := IMap {["StreamingCapabilities" := streaming]}]}) in
  match ptz with
  | Some node => <["PTZ" := node]> base
  | None => base
  end.

(** A reply with a usable [Network] branch and nothing else: the [Events]
    branch is missing. *)
Definition networkOnly : gmap string iface :=
  {["Device" := IMap {["Network" := IMap {["DynDNS" := IStr "true"]}]}]}.

(** Replies with the three mandatory branches, one of them of interest. *)
Definition upperCaseReply : Map :=
  replyOf (capabilitiesOf (IMap {["DynDNS" := IStr "TRUE"]}) (IMap ∅) (IMap ∅) None).

Definition nativeBoolReply : Map :=
  replyOf (capabilitiesOf (IMap {["DynDNS" := IBool true]}) (IMap ∅) (IMap ∅) None).

Definition scalarNetworkReply : Map :=
  replyOf (capabilitiesOf (IStr "none") (IMap ∅) (IMap ∅) None).

Definition scalarEventsReply : Map :=
  replyOf (capabilitiesOf (IMap ∅) (IStr "none") INil None).

Definition nilPTZReply : Map :=
  replyOf (capabilitiesOf (IMap ∅) (IMap ∅) (IMap ∅) (Some INil)).

(** A reply with a [PTZ] branch and no mandatory branch. *)
Definition ptzBranch : gmap string iface := {["XAddr" := IStr "http://x/ptz"]}.

Definition ptzOnly : gmap string iface := {["PTZ" := IMap ptzBranch]}.

(** Wire keys that meet after renaming. *)
Definition collidingEvents : gmap string iface :=
  <["WSPullPoint" := IStr "true"]> {["PullPointWS" := IStr "false"]}.

(** An [Events] branch in which a second key renames to the first. *)
Definition shadowedEvents : gmap string iface :=
  <["WSNotificationSubscription" := IStr "true"]>
  {["WSWSNotificationSubscription" := IStr "true"]}.

(** Address entries in both keyed branches. *)
Definition addressEvents : gmap string iface :=
  <["WSXAddr" := IStr "http://x"]> {["XAddr" := IStr "http://y"]}.

Definition addressStreaming : gmap string iface :=
  {["XAddr" := IStr "http://z"]}.

Definition collidingReply : Map :=
  replyOf (capabilitiesOf (IMap ∅) (IMap collidingEvents) (IMap ∅) None).

Definition shadowedReply : Map :=
  replyOf (capabilitiesOf (IMap ∅) (IMap shadowedEvents) (IMap ∅) None).

Definition addressReply : Map :=
  replyOf (capabilitiesOf (IMap ∅) (IMap addressEvents) (IMap addressStreaming) None).

(** ** Views of the four steps of [GetCapabilities]

    Each view is the expression the function computes at one step, cut out
    so that lemmas can name it; [GetCapabilities_run] proves that the
    function is their composition. *)

Section Views.

Variable rangeOrder : gmap string iface → list (string * iface).

Definition extensionOf (node : iface) : gmap string bool :=
  match node with
  | IMap mapNetExtension =>
      range rangeOrder mapNetExtension ∅ (λ extension key value,
        <[key := interfaceToBool value]> extension)
  | _ => ∅
  end.

Definition networkOf (ifaceNetCap : iface) : NetworkCapabilities :=
  match ifaceNetCap with
  | IMap mapNetCap =>
      {| DynDNS := interfaceToBool (mapNetCap !!! "DynDNS");
         IPFilter := interfaceToBool (mapNetCap !!! "IPFilter");
         IPVersion6 := interfaceToBool (mapNetCap !!! "IPVersion6");
         ZeroConfig := interfaceToBool (mapNetCap !!! "ZeroConfiguration");
         Extension := Some (extensionOf (mapNetCap !!! "Extension")) |}
  | _ => NetworkCapabilities_zero
  end.

Definition eventsOf (ifaceEventsCap : iface) : gmap string bool :=
  match ifaceEventsCap with
  | IMap mapEventsCap =>
      range rangeOrder mapEventsCap ∅ (λ eventsCap key value,
        if String.eqb (ToLower key) "xaddr" then eventsCap
        else
          let key := Replace key "WS" "" 1 in
          <[key := interfaceToBool value]> eventsCap)
  | _ => ∅
  end.

Definition streamingOf (ifaceStreamingCap : iface) : gmap string bool :=
  match ifaceStreamingCap with
  | IMap mapStreamingCap =>
      range rangeOrder mapStreamingCap ∅ (λ streamingCap key value,
        let key := Replace key "_" " " (-1) in
        <[key := interfaceToBool value]> streamingCap)
  | _ => ∅
  end.

Definition ptzOf (response : Map) : bool :=
  match ValueForPath response ptzPath with
  | (_, Some _) => false
  | (_, None) => true
  end.

End Views.

(** What one iteration of each loop assigns: the domain key and the coerced
    value, or nothing when the iteration is skipped. *)
Definition extensionEntry (key : string) (value : iface) : option (string * bool) :=
  Some (key, interfaceToBool value).

Definition eventsEntry (key : string) (value : iface) : option (string * bool) :=
  if String.eqb (ToLower key) "xaddr" then None
  else Some (Replace key "WS" "" 1, interfaceToBool value).

Definition streamingEntry (key : string) (value : iface) : option (string * bool) :=
  Some (Replace key "_" " " (-1), interfaceToBool value).

(** [assign entry acc]: the effect of one iteration on the map being built. *)
Definition assign (entry : option (string * bool)) (acc : gmap string bool) :
    gmap string bool :=
  match entry with
  | Some (key, b) => <[key := b]> acc
  | None => acc
  end.

(** Two entries of a wire mapping agree when they do not assign different
    values to one domain key. *)
Definition agreeOn (entry : string → iface → option (string * bool))
    (m : gmap string iface) : Prop :=
  ∀ k1 v1 k2 v2 dk b1 b2,
    m !! k1 = Some v1 → m !! k2 = Some v2 →
    entry k1 v1 = Some (dk, b1) → entry k2 v2 = Some (dk, b2) → b1 = b2.

(** The same, as a check over the entries of the mapping. *)
Definition agrees (entry : string → iface → option (string * bool))
    (m : gmap string iface) : bool :=
  forallb (λ kv1 : string * iface,
    forallb (λ kv2 : string * iface,
      match entry kv1.1 kv1.2, entry kv2.1 kv2.2 with
      | Some (dk1, b1), Some (dk2, b2) =>
          if String.eqb dk1 dk2 then Bool.eqb b1 b2 else true
      | _, _ => true
      end) (map_to_list m)) (map_to_list m).

(** A reply is collision-consistent at a path when the node there, if it is
    a mapping, never sends two keys to one domain key with different
    coerced values. *)
Definition consistentAt (entry : string → iface → option (string * bool))
    (response : Map) (path : string) : bool :=
  match ValueForPath response path with
  | (IMap m, None) => agrees entry m
  | _ => true
  end.

(** An iteration order is admissible when it enumerates exactly the entries
    of the map. *)
Definition admissible (rangeOrder : gmap string iface → list (string * iface)) : Prop :=
  ∀ m, rangeOrder m ≡ₚ map_to_list m.

(** No byte of [s] is a space or an underscore. *)
Fixpoint plainWord (s : string) : bool :=
  match s with
  | EmptyString => true
  | String c rest =>
      negb (Ascii.eqb c " "%char) && negb (Ascii.eqb c "_"%char) && plainWord rest
  end.

(** ** The other endpoints of [device.go] *)

(** [strings.Contains(s, substr)]; the program does not call it, the
    statements about the key renames do. *)
Fixpoint Contains (s substr : string) : bool :=
  String.prefix substr s ||
  match s with
  | EmptyString => false
  | String _ rest => Contains rest substr
  end.

(** Modelled from the spec: [ValueForPathString] belongs to the decoding
    library.  Section 4.2 ([stringAt]): call [valueAt]; on success, and if
    the result is a string, return it; otherwise return the empty string
    with no error surfaced to the caller. *)
Definition ValueForPathString (mv : Map) (path : string) : string * error :=
  match ValueForPath mv path with
  | (IStr s, None) => (s, nil)
  | _ => ("", nil)
  end.

(** Modelled from the spec: the struct [HostnameInformation] is declared
    outside [device.go]; the fields are those [GetHostname] assigns to, with
    the types of the values assigned. *)
Module Hostname.

Record HostnameInformation : Type := {
  Name : string;
  FromDHCP : bool;
  Extension : string;
}.

(** The composite literal [HostnameInformation{}]. *)
Definition zero : HostnameInformation :=
  {| Name := ""; FromDHCP := false; Extension := "" |}.

End Hostname.

(** The requests the endpoints build and the paths they read, named so that
    statements can refer to them. *)
Definition systemDateAndTimeRequest : SOAP :=
  {| Body := "</tds:GetSystemDateAndTime>"; XMLNs := deviceXMLNs |}.

Definition discoveryModeRequest : SOAP :=
  {| Body := "<tds:GetDiscoveryMode/>"; XMLNs := deviceXMLNs |}.

Definition scopesRequest : SOAP :=
  {| Body := "<tds:GetScopes/>"; XMLNs := deviceXMLNs |}.

Definition hostnameRequest : SOAP :=
  {| Body := "<tds:GetHostname/>"; XMLNs := deviceXMLNs |}.

Definition dnsRequest : SOAP :=
  {| Body := "<tds:GetDNS/>"; XMLNs := deviceXMLNs |}.

Definition networkInterfacesRequest : SOAP :=
  {| Body := "<tds:GetNetworkInterfaces/>"; XMLNs := deviceXMLNs |}.

Definition systemDateAndTimePath : string :=
  "Envelope.Body.GetSystemDateAndTimeResponse.SystemDateAndTime".

Definition discoveryModePath : string :=
  "Envelope.Body.GetDiscoveryModeResponse.DiscoveryMode".

Definition scopesPath : string := "Envelope.Body.GetScopesResponse.Scopes".

Definition hostnamePath : string :=
  "Envelope.Body.GetHostnameResponse.HostnameInformation".

Definition dnsPath : string := "Envelope.Body.GetDNSResponse.DNSInformation".

Section OtherEndpoints.

Variable SendRequest : SOAP → string → Map * error.

(** [response.ValuesForPath(path)] of the decoding library: the nodes found
    at the path, or an error.  The specification leaves its result open for
    nodes that are not lists, so it is a parameter. *)
Variable ValuesForPath : Map → string → list iface * error.

(** [response.JsonIndent(prefix, indent)] of the decoding library. *)
Variable JsonIndent : Map → string → string → string * error.

(** GetSystemDateAndTime fetch date and time from ONVIF camera *)
Definition GetSystemDateAndTime (device : Device) : string * error :=
  (* Create SOAP *)
  let soap := {| Body := "</tds:GetSystemDateAndTime>";
                 XMLNs := deviceXMLNs |} in
  (* Send SOAP request *)
  match SendRequest soap (XAddr device) with
  | (_, Some err) => ("", Some err)
  | (response, None) =>
      (* Parse response *)
      let '(dateTime, _) :=
        ValueForPathString response
          "Envelope.Body.GetSystemDateAndTimeResponse.SystemDateAndTime" in
      (dateTime, nil)
  end.

(** GetDiscoveryMode fetch network discovery mode of an ONVIF camera *)
Definition GetDiscoveryMode (device : Device) : string * error :=
  (* Create SOAP *)
  let soap := {| Body := "<tds:GetDiscoveryMode/>"; XMLNs := deviceXMLNs |} in
  (* Send SOAP request *)
  match SendRequest soap (XAddr device) with
  | (_, Some err) => ("", Some err)
  | (response, None) =>
      (* Parse response *)
      let '(discoveryMode, _) :=
        ValueForPathString response
          "Envelope.Body.GetDiscoveryModeResponse.DiscoveryMode" in
      (discoveryMode, nil)
  end.

(** GetScopes fetch scopes of an ONVIF camera.  The result is a Go slice:
    [None] is the [nil] slice. *)
Definition GetScopes (device : Device) : option (list string) * error :=
  (* Create SOAP *)
  let soap := {| Body := "<tds:GetScopes/>"; XMLNs := deviceXMLNs |} in
  (* Send SOAP request *)
  match SendRequest soap (XAddr device) with
  | (_, Some err) => (None, Some err)
  | (response, None) =>
  (* Parse response to interface *)
  match ValuesForPath response "Envelope.Body.GetScopesResponse.Scopes" with
  | (_, Some err) => (None, Some err)
  | (ifaceScopes, None) =>
      (* Convert interface to array of scope *)
      let scopes :=
        foldl (λ (scopes : list string) (ifaceScope : iface),
                 match ifaceScope with
                 | IMap mapScope =>
                     let scope := interfaceToString (mapScope !!! "ScopeItem") in
                     (scopes ++ [scope])%list
                 | _ => scopes
                 end) [] ifaceScopes in
      (Some scopes, nil)
  end end.

(** GetHostname fetch hostname of an ONVIF camera *)
Definition GetHostname (device : Device) : Hostname.HostnameInformation * error :=
  (* Create SOAP *)
  let soap := {| Body := "<tds:GetHostname/>"; XMLNs := deviceXMLNs |} in
  (* Send SOAP request *)
  match SendRequest soap (XAddr device) with
  | (_, Some err) => (Hostname.zero, Some err)
  | (response, None) =>
  (* Parse response to interface *)
  match ValueForPath response
          "Envelope.Body.GetHostnameResponse.HostnameInformation" with
  | (_, Some err) => (Hostname.zero, Some err)
  | (ifaceHostInfo, None) =>
      (* Parse interface to struct *)
      let hostnameInfo :=
        match ifaceHostInfo with
        | IMap mapHostInfo =>
            {| Hostname.Name := interfaceToString (mapHostInfo !!! "Name");
               Hostname.FromDHCP := interfaceToBool (mapHostInfo !!! "FromDHCP");
               Hostname.Extension :=
                 interfaceToString (mapHostInfo !!! "Extension") |}
        | _ => Hostname.zero
        end in
      (hostnameInfo, nil)
  end end.

(** GetDNS fetch DNS of an ONVIF camera.  The third component is what the
    call writes to the standard output, one element per [fmt.Println]. *)
Definition GetDNS (device : Device) : string * error * list string :=
  (* Create SOAP *)
  let soap := {| Body := "<tds:GetDNS/>"; XMLNs := deviceXMLNs |} in
  (* Send SOAP request *)
  match SendRequest soap (XAddr device) with
  | (_, Some err) => ("", Some err, [])
  | (response, None) =>
      let '(bt, _) := JsonIndent response "" "    " in
      let stdout := [bt] in
      (* Parse response *)
      let '(DNS, _) :=
        ValueForPathString response
          "Envelope.Body.GetDNSResponse.DNSInformation" in
      (DNS, nil, stdout)
  end.

(** GetNetworkInterfaces, with the same convention for the output. *)
Definition GetNetworkInterfaces (device : Device) : string * error * list string :=
  (* Create SOAP *)
  let soap := {| Body := "<tds:GetNetworkInterfaces/>"; XMLNs := deviceXMLNs |} in
  (* Send SOAP request *)
  match SendRequest soap (XAddr device) with
  | (_, Some err) => ("", Some err, [])
  | (response, None) =>
      let '(bt, _) := JsonIndent response "" "    " in
      let stdout := [bt] in
      (* Parse response *)
      let '(DNS, _) :=
        ValueForPathString response
          "Envelope.Body.GetDNSResponse.DNSInformation" in
      (DNS, nil, stdout)
  end.

End OtherEndpoints.

(** Replies and library stand-ins used by the examples of these endpoints. *)
Definition bodyOf (body : gmap string iface) : Map :=
  {[ "Envelope" := IMap {[ "Body" := IMap body ]} ]}.

Definition hostnameReply : Map :=
  bodyOf {[ "GetHostnameResponse" := IMap {[ "HostnameInformation" :=
    IMap (<["Name" := IStr "cam-42"]> (<["FromDHCP" := IStr "True"]>
          {["Extension" := IMap ∅]})) ]} ]}.

Definition scalarHostnameReply : Map :=
  bodyOf {[ "GetHostnameResponse" :=
    IMap {[ "HostnameInformation" := IStr "cam-42" ]} ]}.

Definition interfacesReply : Map :=
  bodyOf {[ "GetNetworkInterfacesResponse" :=
    IMap {[ "NetworkInterfaces" := IStr "eth0" ]} ]}.

Definition dateTimeReply : Map :=
  bodyOf {[ "GetSystemDateAndTimeResponse" :=
    IMap {[ "SystemDateAndTime" := IStr "2019-03-01T10:00:00Z" ]} ]}.

Definition emptyReply : Map := bodyOf ∅.

Definition scopeNodes : list iface :=
  [ IMap {["ScopeItem" := IStr "onvif://www.onvif.org/type/video_encoder"]};
    IStr "stray";
    IMap {["ScopeDef" := IStr "Fixed"]};
    IMap {["ScopeItem" := IStr "onvif://www.onvif.org/name/cam"]} ].

Definition listing (nodes : list iface) : Map → string → list iface * error :=
  λ _ _, (nodes, nil).

Definition printer : Map → string → string → string * error :=
  λ _ _ _, ("{}", nil).

Definition refuse (err : error_value) : SOAP → string → Map * error :=
  λ _ _, (∅, Some err).

(** What one node of a scope list contributes to the result of [GetScopes]:
    the string form of its [ScopeItem] if the node is a mapping, nothing
    otherwise. *)
Definition scopeOf (ifaceScope : iface) : option string :=
  match ifaceScope with
  | IMap mapScope => Some (interfaceToString (mapScope !!! "ScopeItem"))
  | _ => None
  end.

(** ** Facts about the string helpers *)

Lemma lowerByte_space : lowerByte " " = " "%char.
Proof. reflexivity. Qed.

Lemma lowerByte_underscore : lowerByte "_" = "_"%char.
Proof. reflexivity. Qed.

Lemma prefix_empty s : String.prefix "" s = true.
Proof. by destruct s. Qed.

Lemma Replace_underscore_scan k :
  Replace k "_" " " (-1) = replaceScan "_" " " (-1) 0 k.
Proof. reflexivity. Qed.

(** Replacing underscores by spaces cannot create or destroy a key whose
    lower-case form is a word without spaces and underscores. *)
Lemma ToLower_replaceScan_plain n k t :
  (n < 0)%Z → plainWord t = true →
  ToLower (replaceScan "_" " " n 0 k) = t ↔ ToLower k = t.
Proof.
  revert n t. induction k as [|c rest IH]; intros n t Hn Ht; [done|].
  cbn [replaceScan].
  destruct (Z.eqb_spec n 0) as [->|_]; [lia|].
  cbn [String.prefix String.length Nat.sub].
  destruct (ascii_dec "_" c) as [<-|Hc].
  - rewrite prefix_empty.
    change (" " +:+ ?x) with (String " " x). cbn [ToLower].
    rewrite lowerByte_space, lowerByte_underscore.
    destruct t as [|c' t']; [done|]. cbn [plainWord] in Ht.
    destruct (Ascii.eqb_spec c' " "%char) as [->|]; [done|].
    destruct (Ascii.eqb_spec c' "_"%char) as [->|]; [done|].
    split; intros [=]; congruence.
  - cbn [ToLower]. destruct t as [|c' t']; [done|].
    cbn [plainWord] in Ht. apply andb_prop in Ht as [_ Ht].
    specialize (IH n t' Hn Ht).
    split; intros [= Hhd Htl]; f_equal; auto; by apply IH.
Qed.

Lemma ToLower_Replace_underscore_xaddr k :
  ToLower (Replace k "_" " " (-1)) = "xaddr" ↔ ToLower k = "xaddr".
Proof. rewrite Replace_underscore_scan. by apply ToLower_replaceScan_plain. Qed.

(** ** Facts about the coercion helpers *)

Lemma interfaceToBool_true_iff src :
  interfaceToBool src = true ↔ ToLower (interfaceToString src) = "true".
Proof. unfold interfaceToBool. apply String.eqb_eq. Qed.

Lemma interfaceToString_not_string src :
  (∀ s, src ≠ IStr s) → interfaceToString src = "".
Proof. intros Hsrc. destruct src; try done. by destruct (Hsrc s). Qed.

(** ** Facts about [range] loops that assign into a map *)

Section RangeFacts.

Variable entry : string → iface → option (string * bool).
Variable body : gmap string bool → string → iface → gmap string bool.
Hypothesis body_assign : ∀ acc k v, body acc k v = assign (entry k v) acc.

Local Abbreviation step := (λ (acc : gmap string bool) (kv : string * iface),
  body acc kv.1 kv.2).

(** Whatever the loop leaves under a key was there before or was assigned
    by some iteration. *)
Lemma foldl_assign_lookup_Some (l : list (string * iface)) init dk b :
  foldl step init l !! dk = Some b →
  init !! dk = Some b ∨ ∃ k v, (k, v) ∈ l ∧ entry k v = Some (dk, b).
Proof.
  revert init. induction l as [|[k v] l IH]; intros init H; cbn in H; [by left|].
  apply IH in H as [H|(k' & v' & Hin & He)].
  - rewrite body_assign in H. unfold assign in H.
    destruct (entry k v) as [[dk' b']|] eqn:He; [|by left].
    destruct (decide (dk' = dk)) as [->|Hne].
    + rewrite lookup_insert_eq in H. injection H as ->.
      right. exists k, v. split; [left|done].
    + rewrite lookup_insert_ne in H by done. by left.
  - right. exists k', v'. split; [by right|done].
Qed.

(** The loop never removes a key. *)
Lemma foldl_assign_keeps (l : list (string * iface)) init dk :
  is_Some (init !! dk) → is_Some (foldl step init l !! dk).
Proof.
  revert init. induction l as [|[k v] l IH]; intros init H; cbn; [done|].
  apply IH. rewrite body_assign. unfold assign.
  destruct (entry k v) as [[dk' b']|]; [|done].
  destruct (decide (dk' = dk)) as [->|Hne].
  - rewrite lookup_insert_eq. by eexists.
  - by rewrite lookup_insert_ne.
Qed.

(** Every iteration that assigns leaves its domain key in the map. *)
Lemma foldl_assign_stored (l : list (string * iface)) init k v dk b :
  (k, v) ∈ l → entry k v = Some (dk, b) → is_Some (foldl step init l !! dk).
Proof.
  revert init. induction l as [|[k' v'] l IH]; intros init Hin He.
  - by apply elem_of_nil in Hin.
  - cbn. apply elem_of_cons in Hin as [[= <- <-]|Hin]; [|by eapply IH].
    apply foldl_assign_keeps. rewrite body_assign, He. cbn.
    rewrite lookup_insert_eq. by eexists.
Qed.

(** When all iterations assigning to [dk] agree on the value, that value is
    the one found under [dk] after the loop. *)
Lemma foldl_assign_agreed (l : list (string * iface)) k v dk b :
  (k, v) ∈ l → entry k v = Some (dk, b) →
  (∀ k' v' b', (k', v') ∈ l → entry k' v' = Some (dk, b') → b' = b) →
  foldl step ∅ l !! dk = Some b.
Proof.
  intros Hin He Hagree.
  destruct (foldl_assign_stored l ∅ k v dk b Hin He) as [b' Hb'].
  rewrite Hb'. f_equal.
  apply foldl_assign_lookup_Some in Hb' as [Hb'|(k' & v' & Hin' & He')].
  - by rewrite lookup_empty in Hb'.
  - by eapply Hagree.
Qed.

(** The order of the iterations is immaterial when the iterations agree. *)
Lemma foldl_assign_permutation (l l' : list (string * iface)) init :
  l ≡ₚ l' →
  (∀ k1 v1 k2 v2 dk b1 b2, (k1, v1) ∈ l → (k2, v2) ∈ l →
     entry k1 v1 = Some (dk, b1) → entry k2 v2 = Some (dk, b2) → b1 = b2) →
  foldl step init l = foldl step init l'.
Proof.
  intros Hperm. revert init.
  induction Hperm as [|[k v] l l' Hperm IH|[k1 v1] [k2 v2] l|l l' l'' H1 IH1 H2 IH2];
    intros init Hagree.
  - done.
  - cbn. apply IH. intros ?????????. eapply Hagree; by try right.
  - cbn. f_equal. rewrite !body_assign. unfold assign.
    destruct (entry k1 v1) as [[dk1 b1]|] eqn:He1,
             (entry k2 v2) as [[dk2 b2]|] eqn:He2; try done.
    destruct (decide (dk1 = dk2)) as [->|Hne].
    + assert (b1 = b2) as ->; [|done].
      eapply (Hagree k1 v1 k2 v2); [| |exact He1|exact He2].
      * right; left.
      * left.
    + by apply insert_insert_ne.
  - rewrite IH1 by done. apply IH2.
    intros k1 v1 k2 v2 dk b1 b2 Hin1 Hin2. rewrite <- H1 in Hin1, Hin2.
    by eapply Hagree.
Qed.

End RangeFacts.

(** ** The shape of a call to [GetCapabilities] *)

Section Shape.

Variable SendRequest : SOAP → string → Map * error.
Variable rangeOrder : gmap string iface → list (string * iface).

Local Abbreviation GetCaps := (GetCapabilities SendRequest rangeOrder).

(** The call after a successful transport: three look-ups that may each end
    it, then the composition of the four views. *)
Lemma GetCapabilities_run device response :
  SendRequest capabilitiesRequest (XAddr device) = (response, nil) →
  GetCaps device =
    match ValueForPath response networkPath with
    | (_, Some err) => (DeviceCapabilities_zero, Some err)
    | (n, None) =>
        match ValueForPath response eventsPath with
        | (_, Some err) => (DeviceCapabilities_zero, Some err)
        | (e, None) =>
            match ValueForPath response streamingPath with
            | (_, Some err) => (DeviceCapabilities_zero, Some err)
            | (s, None) =>
                ({| Network := networkOf rangeOrder n;
                    Events := Some (eventsOf rangeOrder e);
                    Streaming := Some (streamingOf rangeOrder s);
                    PTZ := ptzOf response |}, nil)
            end
        end
    end.
Proof.
  intros Hsend. unfold GetCapabilities, capabilitiesRequest in *.
  cbv zeta. rewrite Hsend.
  unfold networkOf, extensionOf, eventsOf, streamingOf, ptzOf. reflexivity.
Qed.

(** With the three mandatory branches present the call succeeds. *)
Lemma GetCapabilities_present device response n e s :
  SendRequest capabilitiesRequest (XAddr device) = (response, nil) →
  ValueForPath response networkPath = (n, nil) →
  ValueForPath response eventsPath = (e, nil) →
  ValueForPath response streamingPath = (s, nil) →
  GetCaps device =
    ({| Network := networkOf rangeOrder n;
        Events := Some (eventsOf rangeOrder e);
        Streaming := Some (streamingOf rangeOrder s);
        PTZ := ptzOf response |}, nil).
Proof.
  intros Hsend Hn He Hs.
  by rewrite (GetCapabilities_run device response Hsend), Hn, He, Hs.
Qed.

(** The first missing mandatory branch ends the call with the zero value. *)
Lemma GetCapabilities_missing device response :
  SendRequest capabilitiesRequest (XAddr device) = (response, nil) →
  (ValueForPath response networkPath).2 ≠ nil ∨
  (ValueForPath response eventsPath).2 ≠ nil ∨
  (ValueForPath response streamingPath).2 ≠ nil →
  ∃ err, GetCaps device = (DeviceCapabilities_zero, Some err).
Proof.
  intros Hsend Hmiss. rewrite (GetCapabilities_run device response Hsend).
  destruct (ValueForPath response networkPath) as [n [errN|]]; [by eexists|].
  destruct (ValueForPath response eventsPath) as [e [errE|]]; [by eexists|].
  destruct (ValueForPath response streamingPath) as [s [errS|]]; [by eexists|].
  cbn in Hmiss. by destruct Hmiss as [H|[H|H]].
Qed.

(** A call that succeeds found the three mandatory branches. *)
Lemma GetCapabilities_success_inv device response caps :
  SendRequest capabilitiesRequest (XAddr device) = (response, nil) →
  GetCaps device = (caps, nil) →
  ∃ n e s,
    ValueForPath response networkPath = (n, nil) ∧
    ValueForPath response eventsPath = (e, nil) ∧
    ValueForPath response streamingPath = (s, nil) ∧
    caps = {| Network := networkOf rangeOrder n;
              Events := Some (eventsOf rangeOrder e);
              Streaming := Some (streamingOf rangeOrder s);
              PTZ := ptzOf response |}.
Proof.
  intros Hsend Hcaps.
  destruct (ValueForPath response networkPath) as [n [errN|]] eqn:Hn.
  { destruct (GetCapabilities_missing device response Hsend) as [err Herr];
      [left; by rewrite Hn|congruence]. }
  destruct (ValueForPath response eventsPath) as [e [errE|]] eqn:He.
  { destruct (GetCapabilities_missing device response Hsend) as [err Herr];
      [right; left; by rewrite He|congruence]. }
  destruct (ValueForPath response streamingPath) as [s [errS|]] eqn:Hs.
  { destruct (GetCapabilities_missing device response Hsend) as [err Herr];
      [right; right; by rewrite Hs|congruence]. }
  exists n, e, s. repeat split.
  rewrite (GetCapabilities_present device response n e s) in Hcaps by done.
  congruence.
Qed.

(** The only errors a call returns after a successful transport are those of
    the three mandatory look-ups. *)
Lemma GetCapabilities_error_iff device response :
  SendRequest capabilitiesRequest (XAddr device) = (response, nil) →
  (GetCaps device).2 = nil ↔
  (ValueForPath response networkPath).2 = nil ∧
  (ValueForPath response eventsPath).2 = nil ∧
  (ValueForPath response streamingPath).2 = nil.
Proof.
  intros Hsend. split.
  - intros Hok. destruct (GetCaps device) as [caps err] eqn:Hcaps.
    cbn in Hok. subst err.
    destruct (GetCapabilities_success_inv _ _ _ Hsend Hcaps)
      as (n & e & s & -> & -> & -> & _). done.
  - intros (Hn & He & Hs).
    destruct (ValueForPath response networkPath) as [n errN] eqn:HnE.
    destruct (ValueForPath response eventsPath) as [e errE] eqn:HeE.
    destruct (ValueForPath response streamingPath) as [s errS] eqn:HsE.
    cbn in *. subst.
    by rewrite (GetCapabilities_present device response n e s).
Qed.

Hypothesis rangeOrder_admissible : admissible rangeOrder.

Lemma elem_of_rangeOrder m k v : (k, v) ∈ rangeOrder m ↔ m !! k = Some v.
Proof. rewrite (rangeOrder_admissible m). apply elem_of_map_to_list. Qed.

(** The three loops, seen through [RangeFacts]. *)
Local Abbreviation extensionBody :=
  (λ (extension : gmap string bool) (key : string) (value : iface),
     <[key := interfaceToBool value]> extension).

Local Abbreviation eventsBody :=
  (λ (eventsCap : gmap string bool) (key : string) (value : iface),
     if String.eqb (ToLower key) "xaddr" then eventsCap
     else let key := Replace key "WS" "" 1 in
          <[key := interfaceToBool value]> eventsCap).

Local Abbreviation streamingBody :=
  (λ (streamingCap : gmap string bool) (key : string) (value : iface),
     let key := Replace key "_" " " (-1) in
     <[key := interfaceToBool value]> streamingCap).

Lemma extensionBody_assign acc k v :
  extensionBody acc k v = assign (extensionEntry k v) acc.
Proof. done. Qed.

Lemma eventsBody_assign acc k v :
  eventsBody acc k v = assign (eventsEntry k v) acc.
Proof. unfold eventsEntry. cbv beta zeta. by destruct (String.eqb _ _). Qed.

Lemma streamingBody_assign acc k v :
  streamingBody acc k v = assign (streamingEntry k v) acc.
Proof. done. Qed.

Lemma extensionOf_lookup_Some m dk b :
  extensionOf rangeOrder (IMap m) !! dk = Some b →
  ∃ k v, m !! k = Some v ∧ extensionEntry k v = Some (dk, b).
Proof.
  intros H.
  apply (foldl_assign_lookup_Some _ _ extensionBody_assign)
    in H as [H|(k & v & Hin & He)]; [by rewrite lookup_empty in H|].
  exists k, v. by rewrite <- elem_of_rangeOrder.
Qed.

Lemma extensionOf_agreed m k v :
  m !! k = Some v →
  extensionOf rangeOrder (IMap m) !! k = Some (interfaceToBool v).
Proof.
  intros Hm.
  apply (foldl_assign_agreed _ _ extensionBody_assign _ k v); [|done|].
  - by apply elem_of_rangeOrder.
  - intros k' v' b' Hin [= -> <-]. apply elem_of_rangeOrder in Hin. congruence.
Qed.

Lemma eventsOf_lookup_Some m dk b :
  eventsOf rangeOrder (IMap m) !! dk = Some b →
  ∃ k v, m !! k = Some v ∧ eventsEntry k v = Some (dk, b).
Proof.
  intros H.
  apply (foldl_assign_lookup_Some _ _ eventsBody_assign)
    in H as [H|(k & v & Hin & He)]; [by rewrite lookup_empty in H|].
  exists k, v. by rewrite <- elem_of_rangeOrder.
Qed.

Lemma eventsOf_stored m k v dk b :
  m !! k = Some v → eventsEntry k v = Some (dk, b) →
  is_Some (eventsOf rangeOrder (IMap m) !! dk).
Proof.
  intros Hm He.
  apply (foldl_assign_stored _ _ eventsBody_assign _ _ k v dk b); [|done].
  by apply elem_of_rangeOrder.
Qed.

Lemma eventsOf_agreed m k v dk b :
  m !! k = Some v → eventsEntry k v = Some (dk, b) →
  (∀ k' v' b', m !! k' = Some v' → eventsEntry k' v' = Some (dk, b') → b' = b) →
  eventsOf rangeOrder (IMap m) !! dk = Some b.
Proof.
  intros Hm He Hagree.
  apply (foldl_assign_agreed _ _ eventsBody_assign _ k v); [|done|].
  - by apply elem_of_rangeOrder.
  - intros k' v' b' Hin. apply Hagree. by apply elem_of_rangeOrder.
Qed.

Lemma streamingOf_lookup_Some m dk b :
  streamingOf rangeOrder (IMap m) !! dk = Some b →
  ∃ k v, m !! k = Some v ∧ streamingEntry k v = Some (dk, b).
Proof.
  intros H.
  apply (foldl_assign_lookup_Some _ _ streamingBody_assign)
    in H as [H|(k & v & Hin & He)]; [by rewrite lookup_empty in H|].
  exists k, v. by rewrite <- elem_of_rangeOrder.
Qed.

Lemma streamingOf_stored m k v :
  m !! k = Some v →
  is_Some (streamingOf rangeOrder (IMap m) !! Replace k "_" " " (-1)).
Proof.
  intros Hm.
  apply (foldl_assign_stored _ _ streamingBody_assign _ _ k v _ (interfaceToBool v));
    [|done].
  by apply elem_of_rangeOrder.
Qed.

End Shape.

(** ** The claims *)

Section Claims.

Variable SendRequest : SOAP → string → Map * error.
Variable rangeOrder : gmap string iface → list (string * iface).
Hypothesis rangeOrder_admissible : admissible rangeOrder.

Local Abbreviation GetCaps := (GetCapabilities SendRequest rangeOrder).

(** C1. When one of the three mandatory branches is absent from the decoded
    reply, [GetCapabilities] returns the zero-value [DeviceCapabilities]
    together with a non-nil error, namely the error of the first look-up
    that failed; nothing computed by the earlier steps is returned. *)
Theorem GetCapabilities_hard_failure device response :
  SendRequest capabilitiesRequest (XAddr device) = (response, nil) →
  (ValueForPath response networkPath).2 ≠ nil ∨
  (ValueForPath response eventsPath).2 ≠ nil ∨
  (ValueForPath response streamingPath).2 ≠ nil →
  ∃ err,
    GetCaps device = (DeviceCapabilities_zero, Some err) ∧
    ((ValueForPath response networkPath).2 = Some err ∨
     (ValueForPath response networkPath).2 = nil ∧
     ((ValueForPath response eventsPath).2 = Some err ∨
      (ValueForPath response eventsPath).2 = nil ∧
      (ValueForPath response streamingPath).2 = Some err)).
Proof.
  intros Hsend Hmiss. rewrite (GetCapabilities_run _ _ device response Hsend).
  destruct (ValueForPath response networkPath) as [n [errN|]]; cbn.
  { exists errN. split; [done|by left]. }
  destruct (ValueForPath response eventsPath) as [e [errE|]]; cbn.
  { exists errE. split; [done|right; split; [done|by left]]. }
  destruct (ValueForPath response streamingPath) as [s [errS|]]; cbn.
  { exists errS. split; [done|right; split; [done|by right]]. }
  cbn in Hmiss. by destruct Hmiss as [H|[H|H]].
Qed.

(** Iteration over a map with one entry, and over the [Events] branch of
    the scenario. *)
Lemma rangeOrder_singleton k v : rangeOrder {[k := v]} = [(k, v)].
Proof.
  apply Permutation_singleton_r.
  by rewrite (rangeOrder_admissible {[k := v]}), map_to_list_singleton.
Qed.

Lemma rangeOrder_scenarioEvents :
  rangeOrder scenarioEvents = [("WSPullPoint", IStr "true"); ("XAddr", IStr "http://x")] ∨
  rangeOrder scenarioEvents = [("XAddr", IStr "http://x"); ("WSPullPoint", IStr "true")].
Proof.
  pose proof (rangeOrder_admissible scenarioEvents) as Hperm.
  assert (map_to_list scenarioEvents =
          [("WSPullPoint", IStr "true"); ("XAddr", IStr "http://x")]) as Hlist
    by (vm_compute; reflexivity).
  rewrite Hlist in Hperm. symmetry in Hperm.
  by apply Permutation_length_2_inv in Hperm.
Qed.

(** C2. On the end-to-end scenario of the specification (no [PTZ] branch)
    [GetCapabilities] returns no error and exactly the expected aggregate,
    in whatever order the loops visit the entries. *)
Theorem GetCapabilities_scenario device :
  SendRequest capabilitiesRequest (XAddr device) = (replyOf scenario, nil) →
  GetCaps device = (scenarioCapabilities, nil).
Proof.
  intros Hsend.
  assert (ValueForPath (replyOf scenario) networkPath = (IMap scenarioNetwork, nil))
    as Hn by (vm_compute; reflexivity).
  assert (ValueForPath (replyOf scenario) eventsPath = (IMap scenarioEvents, nil))
    as He by (vm_compute; reflexivity).
  assert (ValueForPath (replyOf scenario) streamingPath = (IMap scenarioStreaming, nil))
    as Hs by (vm_compute; reflexivity).
  assert (ptzOf (replyOf scenario) = false) as Hptz by (vm_compute; reflexivity).
  rewrite (GetCapabilities_present _ _ device _ _ _ _ Hsend Hn He Hs), Hptz.
  unfold scenarioCapabilities. f_equal. f_equal.
  - unfold networkOf.
    assert (scenarioNetwork !!! "Extension" = IMap {["Foo" := IStr "true"]}) as ->
      by (vm_compute; reflexivity).
    unfold extensionOf, range. rewrite rangeOrder_singleton.
    vm_compute; reflexivity.
  - unfold eventsOf, range.
    destruct rangeOrder_scenarioEvents as [-> | ->]; vm_compute; reflexivity.
  - unfold streamingOf, range, scenarioStreaming. rewrite rangeOrder_singleton.
    vm_compute; reflexivity.
Qed.

(** A successful call, taken apart into its look-ups and views. *)
Ltac succeeded Hsend Hcaps :=
  let n := fresh "n" in
  let e := fresh "e" in
  let s := fresh "s" in
  let Hn := fresh "Hn" in
  let He := fresh "He" in
  let Hs := fresh "Hs" in
  destruct (GetCapabilities_success_inv _ _ _ _ _ Hsend Hcaps)
    as (n & e & s & Hn & He & Hs & ->).

Lemma lookup_total_Some (m : gmap string iface) k v :
  m !! k = Some v → m !!! k = v.
Proof. intros H. by rewrite lookup_total_alt, H. Qed.

Lemma lookup_total_not_string (m : gmap string iface) k :
  (∀ s, m !! k ≠ Some (IStr s)) → ∀ s, m !!! k ≠ IStr s.
Proof.
  intros H s Hs. rewrite lookup_total_alt in Hs.
  destruct (m !! k) as [v|] eqn:Hv; cbn in Hs; [|done].
  subst v. by eapply H.
Qed.

Lemma interfaceToBool_not_string src :
  (∀ s, src ≠ IStr s) → interfaceToBool src = false.
Proof.
  intros Hsrc. unfold interfaceToBool.
  by rewrite (interfaceToString_not_string src Hsrc).
Qed.

Lemma eventsEntry_Some k v dk b :
  eventsEntry k v = Some (dk, b) ↔
  ToLower k ≠ "xaddr" ∧ dk = Replace k "WS" "" 1 ∧ b = interfaceToBool v.
Proof.
  unfold eventsEntry. destruct (String.eqb_spec (ToLower k) "xaddr") as [Heq|Hne].
  - split; [done|]. by intros [? _].
  - split; [by intros [= <- <-]|]. by intros (_ & -> & ->).
Qed.

(** C3 (amended). [interfaceToBool] is a total function that returns [true]
    exactly when the lower-cased string form of its argument is ["true"].
    On every decoded reply on which [GetCapabilities] succeeds and whose
    [Network] branch is a mapping with a string [s] under [DynDNS], the
    returned [Network.DynDNS] is [true] exactly when [s] lower-cases to
    ["true"]: so for ["true"] and ["TRUE"], not for ["1"] or the empty
    string. *)
Theorem DynDNS_coercion :
  (∀ src, interfaceToBool src = true ↔ ToLower (interfaceToString src) = "true") ∧
  (∀ device response caps mapNetCap s,
     SendRequest capabilitiesRequest (XAddr device) = (response, nil) →
     GetCaps device = (caps, nil) →
     ValueForPath response networkPath = (IMap mapNetCap, nil) →
     mapNetCap !! "DynDNS" = Some (IStr s) →
     (DynDNS (Network caps) = true ↔ ToLower s = "true")) ∧
  (interfaceToBool (IStr "true") = true ∧ interfaceToBool (IStr "TRUE") = true ∧
   interfaceToBool (IStr "tRuE") = true ∧
   interfaceToBool (IStr "1") = false ∧ interfaceToBool (IStr "") = false).
Proof.
  split; [exact interfaceToBool_true_iff|]. split; [|by vm_compute].
  intros device response caps mapNetCap s Hsend Hcaps Hnet Hdyn.
  succeeded Hsend Hcaps. rewrite Hnet in Hn. injection Hn as <-.
  cbn. rewrite (lookup_total_Some _ _ _ Hdyn).
  apply (interfaceToBool_true_iff (IStr s)).
Qed.

(** C4 (amended). On every decoded reply on which [GetCapabilities] succeeds
    and whose [Events] branch is a mapping: every key of the returned
    [Events] map is the rename (first ["WS"] removed) of a wire key that does
    not lower-case to ["xaddr"], and holds the coercion of that wire key's
    value; every such wire key has its rename in the map, with its own
    coerced value whenever the wire keys sharing that rename agree on it.
    In particular a wire key ["WSNotificationSubscription"] yields the key
    ["NotificationSubscription"], and the original key is in the result
    exactly when some other wire key renames to it. *)
Theorem Events_rename device response caps mapEventsCap :
  SendRequest capabilitiesRequest (XAddr device) = (response, nil) →
  GetCaps device = (caps, nil) →
  ValueForPath response eventsPath = (IMap mapEventsCap, nil) →
  ∃ ev, Events caps = Some ev ∧
    (∀ dk b, ev !! dk = Some b →
       ∃ k v, mapEventsCap !! k = Some v ∧ ToLower k ≠ "xaddr" ∧
              dk = Replace k "WS" "" 1 ∧ b = interfaceToBool v) ∧
    (∀ k v, mapEventsCap !! k = Some v → ToLower k ≠ "xaddr" →
       is_Some (ev !! Replace k "WS" "" 1)) ∧
    (∀ k v, mapEventsCap !! k = Some v → ToLower k ≠ "xaddr" →
       (∀ k' v', mapEventsCap !! k' = Some v' → ToLower k' ≠ "xaddr" →
          Replace k' "WS" "" 1 = Replace k "WS" "" 1 →
          interfaceToBool v' = interfaceToBool v) →
       ev !! Replace k "WS" "" 1 = Some (interfaceToBool v)) ∧
    (is_Some (mapEventsCap !! "WSNotificationSubscription") →
       is_Some (ev !! "NotificationSubscription") ∧
       (is_Some (ev !! "WSNotificationSubscription") ↔
        ∃ k, k ≠ "WSNotificationSubscription" ∧ is_Some (mapEventsCap !! k) ∧
             ToLower k ≠ "xaddr" ∧
             Replace k "WS" "" 1 = "WSNotificationSubscription")).
Proof.
  intros Hsend Hcaps Hev. succeeded Hsend Hcaps.
  rewrite Hev in He. injection He as <-.
  eexists. split; [reflexivity|].
  assert (∀ dk b, eventsOf rangeOrder (IMap mapEventsCap) !! dk = Some b →
            ∃ k v, mapEventsCap !! k = Some v ∧ ToLower k ≠ "xaddr" ∧
                   dk = Replace k "WS" "" 1 ∧ b = interfaceToBool v) as Hfrom.
  { intros dk b Hdk.
    apply (eventsOf_lookup_Some _ rangeOrder_admissible) in Hdk as (k & v & Hk & Hentry).
    apply eventsEntry_Some in Hentry. by exists k, v. }
  assert (∀ k v, mapEventsCap !! k = Some v → ToLower k ≠ "xaddr" →
            is_Some (eventsOf rangeOrder (IMap mapEventsCap) !! Replace k "WS" "" 1))
    as Hto.
  { intros k v Hk Hlow.
    apply (eventsOf_stored _ rangeOrder_admissible _ k v _ (interfaceToBool v)); [done|].
    by apply eventsEntry_Some. }
  split; [exact Hfrom|]. split; [exact Hto|]. split.
  - intros k v Hk Hlow Hagree.
    apply (eventsOf_agreed _ rangeOrder_admissible _ k v); [done|by apply eventsEntry_Some|].
    intros k' v' b' Hk' Hentry. apply eventsEntry_Some in Hentry as (Hlow' & Hdk & ->).
    by eapply Hagree.
  - intros [v Hv]. split.
    + by apply (Hto "WSNotificationSubscription" v).
    + split.
      * intros [b Hb]. apply Hfrom in Hb as (k & v' & Hk & Hlow & Hdk & _).
        exists k. split; [|by eauto].
        intros ->. by vm_compute in Hdk.
      * intros (k & _ & [v' Hk] & Hlow & Hdk). rewrite <- Hdk. by eapply Hto.
Qed.

(** C5 (amended). On every decoded reply accepted by [GetCapabilities]: every
    key of the returned [Events] map is the rename of a wire key that does
    not lower-case to ["xaddr"], so a key of [Events] lower-cases to
    ["xaddr"] only when it comes from a different wire key, one that lost
    its ["WS"] (such as ["WSXAddr"]); the [Streaming] loop has no such
    filter, and the returned [Streaming] map has a key that lower-cases to
    ["xaddr"] exactly when the wire branch has one.  Branches that are not
    mappings give empty maps. *)
Theorem xaddr_keys device response caps :
  SendRequest capabilitiesRequest (XAddr device) = (response, nil) →
  GetCaps device = (caps, nil) →
  ∃ ev st, Events caps = Some ev ∧ Streaming caps = Some st ∧
    (∀ m, ValueForPath response eventsPath = (IMap m, nil) →
       ∀ dk, is_Some (ev !! dk) →
         ∃ k, is_Some (m !! k) ∧ ToLower k ≠ "xaddr" ∧
              Replace k "WS" "" 1 = dk ∧ (ToLower dk = "xaddr" → k ≠ dk)) ∧
    (∀ m, ValueForPath response streamingPath = (IMap m, nil) →
       (∃ dk, is_Some (st !! dk) ∧ ToLower dk = "xaddr") ↔
       (∃ k, is_Some (m !! k) ∧ ToLower k = "xaddr")) ∧
    (∀ e, ValueForPath response eventsPath = (e, nil) →
       (∀ m, e ≠ IMap m) → ev = ∅) ∧
    (∀ s, ValueForPath response streamingPath = (s, nil) →
       (∀ m, s ≠ IMap m) → st = ∅).
Proof.
  intros Hsend Hcaps. succeeded Hsend Hcaps.
  do 2 eexists. do 2 (split; [reflexivity|]).
  split; [|split; [|split]].
  - intros m Hev dk [b Hb]. rewrite Hev in He. injection He as <-.
    apply (eventsOf_lookup_Some _ rangeOrder_admissible) in Hb as (k & v & Hk & Hentry).
    apply eventsEntry_Some in Hentry as (Hlow & -> & _).
    exists k. repeat split; eauto. intros Hx Heq. by rewrite <- Heq in Hx.
  - intros m Hst. rewrite Hst in Hs. injection Hs as <-. split.
    + intros (dk & [b Hb] & Hlow).
      apply (streamingOf_lookup_Some _ rangeOrder_admissible) in Hb
        as (k & v & Hk & [= <- _]).
      exists k. split; [by eauto|]. by apply ToLower_Replace_underscore_xaddr.
    + intros (k & [v Hk] & Hlow).
      exists (Replace k "_" " " (-1)). split.
      * by apply (streamingOf_stored _ rangeOrder_admissible _ k v).
      * by apply ToLower_Replace_underscore_xaddr.
  - intros e' He' Hshape. rewrite He' in He. injection He as <-.
    destruct e'; try done. by destruct (Hshape m).
  - intros s' Hs' Hshape. rewrite Hs' in Hs. injection Hs as <-.
    destruct s'; try done. by destruct (Hshape m).
Qed.

(** X12. On every decoded reply on which [GetCapabilities] succeeds and
    whose [Device.Network] branch is a mapping, the returned
    [Network.Extension] is an initialised map: empty when the wire
    [Extension] entry is absent or not a mapping, and otherwise the wire
    sub-mapping with every value coerced to [bool]. *)
Theorem Extension_initialized device response caps mapNetCap :
  SendRequest capabilitiesRequest (XAddr device) = (response, nil) →
  GetCaps device = (caps, nil) →
  ValueForPath response networkPath = (IMap mapNetCap, nil) →
  ∃ ext, Extension (Network caps) = Some ext ∧
    ((∀ m, mapNetCap !! "Extension" ≠ Some (IMap m)) → ext = ∅) ∧
    (∀ m, mapNetCap !! "Extension" = Some (IMap m) → ext = interfaceToBool <$> m).
Proof.
  intros Hsend Hcaps Hnet. succeeded Hsend Hcaps.
  rewrite Hnet in Hn. injection Hn as <-.
  eexists. split; [reflexivity|]. split.
  - intros Hshape. rewrite lookup_total_alt.
    destruct (mapNetCap !! "Extension") as [[]|] eqn:Hext; try done.
    by destruct (Hshape m).
  - intros m Hext. rewrite (lookup_total_Some _ _ _ Hext).
    apply map_eq. intros k. rewrite lookup_fmap.
    destruct (m !! k) as [v|] eqn:Hk; cbn.
    + by apply extensionOf_agreed.
    + destruct (extensionOf rangeOrder (IMap m) !! k) as [b|] eqn:Hb; [|done].
      apply (extensionOf_lookup_Some _ rangeOrder_admissible) in Hb
        as (k' & v' & Hk' & [= -> _]). congruence.
Qed.

(** C7 (amended). When the [PTZ] look-up fails, the returned [PTZ] is
    [false].  On every decoded reply in which the three mandatory branches
    are present the call succeeds whether or not there is a [PTZ] branch,
    and the returned [PTZ] is [true] exactly when the [PTZ] look-up
    succeeds, whatever node it finds (a [nil] included). *)
Theorem PTZ_presence device response :
  SendRequest capabilitiesRequest (XAddr device) = (response, nil) →
  ((ValueForPath response ptzPath).2 ≠ nil → PTZ (GetCaps device).1 = false) ∧
  (∀ n e s,
     ValueForPath response networkPath = (n, nil) →
     ValueForPath response eventsPath = (e, nil) →
     ValueForPath response streamingPath = (s, nil) →
     ∃ caps, GetCaps device = (caps, nil) ∧
       (PTZ caps = true ↔ ∃ node, ValueForPath response ptzPath = (node, nil)) ∧
       (PTZ caps = false ↔ (ValueForPath response ptzPath).2 ≠ nil)).
Proof.
  intros Hsend. split.
  - intros Hptz. rewrite (GetCapabilities_run _ _ device response Hsend).
    destruct (ValueForPath response networkPath) as [n [errN|]]; [done|].
    destruct (ValueForPath response eventsPath) as [e [errE|]]; [done|].
    destruct (ValueForPath response streamingPath) as [s [errS|]]; [done|].
    cbn. unfold ptzOf.
    by destruct (ValueForPath response ptzPath) as [node [errP|]].
  - intros n e s Hn He Hs.
    rewrite (GetCapabilities_present _ _ device response n e s) by done.
    eexists. split; [reflexivity|]. cbn. unfold ptzOf.
    destruct (ValueForPath response ptzPath) as [node [errP|]]; cbn.
    + split; [split; [done|by intros [? [=]]]|done].
    + split; [split; [by eauto|done]|]. split; [done|]. by intros [].
Qed.

(** C9. On every decoded reply on which [GetCapabilities] succeeds the
    returned [Events] and [Streaming] are initialised maps, and each is
    empty when its branch is present but not a mapping; the call succeeds
    whenever the three mandatory branches are present, whatever their
    shape. *)
Theorem Events_Streaming_initialized device response :
  SendRequest capabilitiesRequest (XAddr device) = (response, nil) →
  (∀ caps, GetCaps device = (caps, nil) →
     ∃ ev st, Events caps = Some ev ∧ Streaming caps = Some st ∧
       (∀ e, ValueForPath response eventsPath = (e, nil) →
          (∀ m, e ≠ IMap m) → ev = ∅) ∧
       (∀ s, ValueForPath response streamingPath = (s, nil) →
          (∀ m, s ≠ IMap m) → st = ∅)) ∧
  (∀ n e s,
     ValueForPath response networkPath = (n, nil) →
     ValueForPath response eventsPath = (e, nil) →
     ValueForPath response streamingPath = (s, nil) →
     (GetCaps device).2 = nil).
Proof.
  intros Hsend. split.
  - intros caps Hcaps. succeeded Hsend Hcaps.
    do 2 eexists. do 2 (split; [reflexivity|]). split.
    + intros e' He' Hshape. rewrite He' in He. injection He as <-.
      destruct e'; try done. by destruct (Hshape m).
    + intros s' Hs' Hshape. rewrite Hs' in Hs. injection Hs as <-.
      destruct s'; try done. by destruct (Hshape m).
  - intros n e s Hn He Hs.
    by rewrite (GetCapabilities_present _ _ device response n e s).
Qed.

(** C10. [interfaceToBool] returns [false] on every node that is not a
    string, because [interfaceToString] sends every such node to the empty
    string: a native [true], a number, [nil], a list and a mapping all
    coerce to [false].  Hence a [Network] flag that is absent, or encoded
    as anything but a string, is reported as [false]. *)
Theorem interfaceToBool_non_string :
  (∀ src, (∀ s, src ≠ IStr s) →
     interfaceToString src = "" ∧ interfaceToBool src = false) ∧
  (interfaceToBool (IBool true) = false ∧ interfaceToBool INil = false ∧
   (∀ x, interfaceToBool (INum x) = false) ∧
   (∀ l, interfaceToBool (IList l) = false) ∧
   (∀ m, interfaceToBool (IMap m) = false)) ∧
  (∀ device response mapNetCap,
     SendRequest capabilitiesRequest (XAddr device) = (response, nil) →
     ValueForPath response networkPath = (IMap mapNetCap, nil) →
     ((∀ s, mapNetCap !! "DynDNS" ≠ Some (IStr s)) →
        DynDNS (Network (GetCaps device).1) = false) ∧
     ((∀ s, mapNetCap !! "IPFilter" ≠ Some (IStr s)) →
        IPFilter (Network (GetCaps device).1) = false) ∧
     ((∀ s, mapNetCap !! "IPVersion6" ≠ Some (IStr s)) →
        IPVersion6 (Network (GetCaps device).1) = false) ∧
     ((∀ s, mapNetCap !! "ZeroConfiguration" ≠ Some (IStr s)) →
        ZeroConfig (Network (GetCaps device).1) = false)).
Proof.
  split; [|split; [done|]].
  - intros src Hsrc. split.
    + by apply interfaceToString_not_string.
    + by apply interfaceToBool_not_string.
  - intros device response mapNetCap Hsend Hnet.
    rewrite (GetCapabilities_run _ _ device response Hsend), Hnet.
    destruct (ValueForPath response eventsPath) as [e [errE|]]; [done|].
    destruct (ValueForPath response streamingPath) as [s [errS|]]; [done|].
    cbn. repeat split; intros Hflag;
      by apply interfaceToBool_not_string, lookup_total_not_string.
Qed.

End Claims.

(** ** Dependence on the iteration order *)

Lemma forwardOrder_admissible : admissible forwardOrder.
Proof. by intros m. Qed.

Lemma backwardOrder_admissible : admissible backwardOrder.
Proof. intros m. apply reverse_Permutation. Qed.

Lemma agrees_agreeOn entry m : agrees entry m = true → agreeOn entry m.
Proof.
  intros Hcheck k1 v1 k2 v2 dk b1 b2 Hk1 Hk2 He1 He2.
  unfold agrees in Hcheck. rewrite forallb_forall in Hcheck.
  apply elem_of_map_to_list, list_elem_of_In in Hk1, Hk2.
  specialize (Hcheck _ Hk1). rewrite forallb_forall in Hcheck.
  specialize (Hcheck _ Hk2). cbn in Hcheck.
  rewrite He1, He2, String.eqb_refl in Hcheck. by apply Bool.eqb_prop.
Qed.

Section Orders.

Variables order1 order2 : gmap string iface → list (string * iface).
Hypothesis order1_admissible : admissible order1.
Hypothesis order2_admissible : admissible order2.

Lemma orders_permutation m : order1 m ≡ₚ order2 m.
Proof. by rewrite (order1_admissible m), (order2_admissible m). Qed.

Lemma extensionOf_order node : extensionOf order1 node = extensionOf order2 node.
Proof.
  destruct node as [| | | | |m]; try done.
  apply (foldl_assign_permutation _ _ extensionBody_assign);
    [apply orders_permutation|].
  intros k1 v1 k2 v2 dk b1 b2 Hk1 Hk2 [= <- <-] [= <- <-].
  apply (elem_of_rangeOrder _ order1_admissible) in Hk1, Hk2. congruence.
Qed.

Lemma networkOf_order node : networkOf order1 node = networkOf order2 node.
Proof.
  destruct node as [| | | | |m]; try done.
  unfold networkOf. by rewrite extensionOf_order.
Qed.

Lemma eventsOf_order node :
  (∀ m, node = IMap m → agreeOn eventsEntry m) →
  eventsOf order1 node = eventsOf order2 node.
Proof.
  intros Hagree. destruct node as [| | | | |m]; try done.
  apply (foldl_assign_permutation _ _ eventsBody_assign);
    [apply orders_permutation|].
  intros k1 v1 k2 v2 dk b1 b2 Hk1 Hk2.
  apply (elem_of_rangeOrder _ order1_admissible) in Hk1, Hk2.
  by apply (Hagree m eq_refl k1 v1 k2 v2).
Qed.

Lemma streamingOf_order node :
  (∀ m, node = IMap m → agreeOn streamingEntry m) →
  streamingOf order1 node = streamingOf order2 node.
Proof.
  intros Hagree. destruct node as [| | | | |m]; try done.
  apply (foldl_assign_permutation _ _ streamingBody_assign);
    [apply orders_permutation|].
  intros k1 v1 k2 v2 dk b1 b2 Hk1 Hk2.
  apply (elem_of_rangeOrder _ order1_admissible) in Hk1, Hk2.
  by apply (Hagree m eq_refl k1 v1 k2 v2).
Qed.

(** C8 (amended). Two invocations on the same decoded reply, whatever the
    orders in which their loops visit the entries, return the same error
    outcome; they return the same aggregate as well whenever no two wire
    keys of [Events], nor of [Streaming], are sent to one domain key with
    different coerced values.  (When such a collision exists the last
    iteration wins and the orders decide the value.) *)
Theorem GetCapabilities_order_independent SendRequest device response :
  SendRequest capabilitiesRequest (XAddr device) = (response, nil) →
  (GetCapabilities SendRequest order1 device).2 =
  (GetCapabilities SendRequest order2 device).2 ∧
  (consistentAt eventsEntry response eventsPath = true →
   consistentAt streamingEntry response streamingPath = true →
   GetCapabilities SendRequest order1 device =
   GetCapabilities SendRequest order2 device).
Proof.
  intros Hsend. unfold consistentAt.
  rewrite !(GetCapabilities_run _ _ device response Hsend).
  destruct (ValueForPath response networkPath) as [n [errN|]]; [done|].
  destruct (ValueForPath response eventsPath) as [e [errE|]]; [done|].
  destruct (ValueForPath response streamingPath) as [s [errS|]]; [done|].
  split; [done|]. intros He Hs.
  rewrite networkOf_order, (eventsOf_order e), (streamingOf_order s); [done| |].
  - intros m ->. by apply agrees_agreeOn.
  - intros m ->. by apply agrees_agreeOn.
Qed.

End Orders.

(** ** The theorems at concrete replies *)

(** [Network] is found, [Events] is not: the call ends with the zero value
    and the error of the [Events] look-up. *)
Lemma GetCapabilities_hard_failure_witness :
  (ValueForPath (replyOf networkOnly) networkPath).2 = nil ∧
  (ValueForPath (replyOf networkOnly) eventsPath).2 ≠ nil ∧
  ∃ err,
    GetCapabilities (deliver (replyOf networkOnly)) forwardOrder camera =
      (DeviceCapabilities_zero, Some err) ∧
    ((ValueForPath (replyOf networkOnly) networkPath).2 = Some err ∨
     (ValueForPath (replyOf networkOnly) networkPath).2 = nil ∧
     ((ValueForPath (replyOf networkOnly) eventsPath).2 = Some err ∨
      (ValueForPath (replyOf networkOnly) eventsPath).2 = nil ∧
      (ValueForPath (replyOf networkOnly) streamingPath).2 = Some err)).
Proof.
  split; [by vm_compute|]. split; [by vm_compute|].
  apply (GetCapabilities_hard_failure (deliver (replyOf networkOnly)) forwardOrder
           camera (replyOf networkOnly)); [reflexivity|].
  right; left. by vm_compute.
Defined.

Lemma GetCapabilities_scenario_witness :
  GetCapabilities (deliver (replyOf scenario)) backwardOrder camera =
    (scenarioCapabilities, nil).
Proof.
  apply (GetCapabilities_scenario (deliver (replyOf scenario)) backwardOrder
           backwardOrder_admissible camera).
  reflexivity.
Defined.

Lemma DynDNS_coercion_witness :
  DynDNS (Network (GetCapabilities (deliver upperCaseReply) forwardOrder camera).1) = true ↔
  ToLower "TRUE" = "true".
Proof.
  apply (proj1 (proj2 (DynDNS_coercion (deliver upperCaseReply) forwardOrder))
           camera upperCaseReply _ {["DynDNS" := IStr "TRUE"]} "TRUE");
    vm_compute; reflexivity.
Defined.

(** C3, as stated, fails: the [Network] branch is a mapping whose [DynDNS]
    is ["true"], but the [Events] branch is missing, so the zero value comes
    back and [Network.DynDNS] is [false]. *)
Lemma DynDNS_lost_on_failure :
  ValueForPath (replyOf networkOnly) networkPath =
    (IMap {["DynDNS" := IStr "true"]}, nil) ∧
  ({["DynDNS" := IStr "true"]} : gmap string iface) !! "DynDNS" = Some (IStr "true") ∧
  DynDNS (Network (GetCapabilities (deliver (replyOf networkOnly)) forwardOrder camera).1)
    ≠ true.
Proof. repeat split; by vm_compute. Qed.

Lemma Events_rename_witness :
  ∃ ev,
    Events (GetCapabilities (deliver shadowedReply) forwardOrder camera).1 = Some ev ∧
    is_Some (ev !! "NotificationSubscription") ∧
    is_Some (ev !! "WSNotificationSubscription").
Proof.
  assert (is_Some (shadowedEvents !! "WSNotificationSubscription")) as Hwire
    by (vm_compute; eauto).
  destruct (Events_rename (deliver shadowedReply) forwardOrder forwardOrder_admissible
              camera shadowedReply
              (GetCapabilities (deliver shadowedReply) forwardOrder camera).1
              shadowedEvents)
    as (ev & Hev & _ & _ & _ & Hkey); try (vm_compute; reflexivity).
  destruct (Hkey Hwire) as [Hnew Hold].
  exists ev. split; [exact Hev|]. split; [exact Hnew|]. apply Hold.
  exists "WSWSNotificationSubscription".
  split; [discriminate|]. split; [vm_compute; eauto|].
  split; [vm_compute; discriminate|vm_compute; reflexivity].
Defined.

(** C4, as stated, fails: the [Events] branch holds
    ["WSNotificationSubscription"], and the returned map still has that key,
    the rename of ["WSWSNotificationSubscription"]. *)
Lemma Events_original_key_kept :
  ValueForPath shadowedReply eventsPath = (IMap shadowedEvents, nil) ∧
  is_Some (shadowedEvents !! "WSNotificationSubscription") ∧
  ∃ caps ev,
    GetCapabilities (deliver shadowedReply) forwardOrder camera = (caps, nil) ∧
    Events caps = Some ev ∧
    ev !! "WSNotificationSubscription" ≠ None.
Proof.
  split; [vm_compute; reflexivity|]. split; [vm_compute; eauto|].
  do 2 eexists. split; [vm_compute; reflexivity|]. split; [reflexivity|].
  vm_compute. discriminate.
Qed.

Lemma xaddr_keys_witness :
  ∃ ev st,
    Events (GetCapabilities (deliver addressReply) forwardOrder camera).1 = Some ev ∧
    Streaming (GetCapabilities (deliver addressReply) forwardOrder camera).1 = Some st ∧
    (∃ k, is_Some (addressEvents !! k) ∧ ToLower k ≠ "xaddr" ∧
          Replace k "WS" "" 1 = "XAddr" ∧ k ≠ "XAddr") ∧
    (∃ dk, is_Some (st !! dk) ∧ ToLower dk = "xaddr").
Proof.
  destruct (xaddr_keys (deliver addressReply) forwardOrder forwardOrder_admissible
              camera addressReply
              (GetCapabilities (deliver addressReply) forwardOrder camera).1)
    as (ev & st & Hev & Hst & Hevents & Hstreaming & _);
    try (vm_compute; reflexivity).
  exists ev, st. split; [exact Hev|]. split; [exact Hst|]. split.
  - destruct (Hevents addressEvents) with (dk := "XAddr")
      as (k & Hk & Hlow & Hdk & Hne); [vm_compute; reflexivity| |].
    + vm_compute in Hev. injection Hev as <-. vm_compute. eauto.
    + exists k. split; [exact Hk|]. split; [exact Hlow|]. split; [exact Hdk|].
      apply Hne. vm_compute; reflexivity.
  - apply (Hstreaming addressStreaming); [vm_compute; reflexivity|].
    exists "XAddr". split; [vm_compute; eauto|vm_compute; reflexivity].
Defined.

(** C5, as stated, fails: the call succeeds, and both returned maps have the
    key ["XAddr"], which lower-cases to ["xaddr"]. *)
Lemma xaddr_key_returned :
  ∃ caps ev st,
    GetCapabilities (deliver addressReply) forwardOrder camera = (caps, nil) ∧
    Events caps = Some ev ∧ Streaming caps = Some st ∧
    ev !! "XAddr" ≠ None ∧ st !! "XAddr" ≠ None ∧ ToLower "XAddr" = "xaddr".
Proof.
  do 3 eexists. split; [vm_compute; reflexivity|].
  do 2 (split; [reflexivity|]).
  split; [vm_compute; discriminate|]. split; [vm_compute; discriminate|].
  vm_compute; reflexivity.
Qed.

Lemma Extension_initialized_witness :
  ∃ ext,
    Extension (Network (GetCapabilities (deliver (replyOf scenario)) forwardOrder camera).1)
      = Some ext ∧
    ext = interfaceToBool <$> ({["Foo" := IStr "true"]} : gmap string iface).
Proof.
  destruct (Extension_initialized (deliver (replyOf scenario)) forwardOrder
              forwardOrder_admissible camera (replyOf scenario)
              (GetCapabilities (deliver (replyOf scenario)) forwardOrder camera).1
              scenarioNetwork)
    as (ext & Hext & _ & Hmap); try (vm_compute; reflexivity).
  exists ext. split; [exact Hext|]. apply Hmap. vm_compute; reflexivity.
Defined.

(** C6 (defect of the code).  The claim asks for an initialised
    [Network.Extension] on every successful call, a [Device.Network] branch
    that is not a mapping included.  Here that branch is a string: the call
    succeeds, [Events] and [Streaming] come back as initialised empty maps
    (they are made before their type assertions), but [Network.Extension]
    is the [nil] map, because its [make] sits inside the [if ok] block. *)
Lemma Extension_nil_on_scalar_network :
  ValueForPath scalarNetworkReply networkPath = (IStr "none", nil) ∧
  ∃ caps,
    GetCapabilities (deliver scalarNetworkReply) forwardOrder camera = (caps, nil) ∧
    Extension (Network caps) = None ∧
    Events caps = Some ∅ ∧ Streaming caps = Some ∅.
Proof.
  split; [vm_compute; reflexivity|].
  eexists. split; [vm_compute; reflexivity|].
  split; [reflexivity|]. split; reflexivity.
Qed.

Lemma PTZ_presence_witness :
  ∃ caps,
    GetCapabilities (deliver nilPTZReply) forwardOrder camera = (caps, nil) ∧
    ValueForPath nilPTZReply ptzPath = (INil, nil) ∧
    PTZ caps = true.
Proof.
  destruct (proj2 (PTZ_presence (deliver nilPTZReply) forwardOrder camera nilPTZReply
                     eq_refl) (IMap ∅) (IMap ∅) (IMap ∅))
    as (caps & Hcaps & Htrue & _); try (vm_compute; reflexivity).
  exists caps. split; [exact Hcaps|]. split; [vm_compute; reflexivity|].
  apply Htrue. exists INil. vm_compute; reflexivity.
Defined.

(** C7, as stated, fails: the reply has a [PTZ] branch but no [Network]
    branch, so the zero value comes back and [PTZ] is [false]. *)
Lemma PTZ_lost_on_failure :
  ValueForPath (replyOf ptzOnly) ptzPath = (IMap ptzBranch, nil) ∧
  PTZ (GetCapabilities (deliver (replyOf ptzOnly)) forwardOrder camera).1 ≠ true.
Proof. split; [vm_compute; reflexivity|]. vm_compute. discriminate. Qed.

Lemma GetCapabilities_order_independent_witness :
  GetCapabilities (deliver (replyOf scenario)) forwardOrder camera =
  GetCapabilities (deliver (replyOf scenario)) backwardOrder camera.
Proof.
  apply (GetCapabilities_order_independent forwardOrder backwardOrder
           forwardOrder_admissible backwardOrder_admissible
           (deliver (replyOf scenario)) camera (replyOf scenario));
    vm_compute; reflexivity.
Defined.

(** C8, as stated, fails: two admissible orders, one reply whose [Events]
    keys ["WSPullPoint"] and ["PullPointWS"] both become ["PullPoint"], and
    two different aggregates. *)
Lemma GetCapabilities_order_dependent :
  admissible forwardOrder ∧ admissible backwardOrder ∧
  GetCapabilities (deliver collidingReply) forwardOrder camera ≠
  GetCapabilities (deliver collidingReply) backwardOrder camera.
Proof.
  split; [exact forwardOrder_admissible|]. split; [exact backwardOrder_admissible|].
  intros Heq.
  apply (f_equal (λ r : DeviceCapabilities * option error_value,
                    Events r.1 ≫= (.!! "PullPoint"))) in Heq.
  vm_compute in Heq. discriminate.
Qed.

Lemma Events_Streaming_initialized_witness :
  (∃ ev st,
     Events (GetCapabilities (deliver scalarEventsReply) forwardOrder camera).1 = Some ev ∧
     Streaming (GetCapabilities (deliver scalarEventsReply) forwardOrder camera).1 = Some st ∧
     ev = ∅ ∧ st = ∅) ∧
  (GetCapabilities (deliver scalarEventsReply) forwardOrder camera).2 = nil.
Proof.
  destruct (Events_Streaming_initialized (deliver scalarEventsReply) forwardOrder
              camera scalarEventsReply eq_refl) as [Hinit Hok].
  split.
  - destruct (Hinit (GetCapabilities (deliver scalarEventsReply) forwardOrder camera).1)
      as (ev & st & Hev & Hst & Hempty_ev & Hempty_st); [vm_compute; reflexivity|].
    exists ev, st. split; [exact Hev|]. split; [exact Hst|]. split.
    + apply (Hempty_ev (IStr "none")); [vm_compute; reflexivity|discriminate].
    + apply (Hempty_st INil); [vm_compute; reflexivity|discriminate].
  - apply (Hok (IMap ∅) (IStr "none") INil); vm_compute; reflexivity.
Defined.

Lemma interfaceToBool_non_string_witness :
  interfaceToBool (IBool true) = false ∧
  DynDNS (Network (GetCapabilities (deliver nativeBoolReply) forwardOrder camera).1) = false.
Proof.
  destruct (interfaceToBool_non_string (deliver nativeBoolReply) forwardOrder)
    as (Hhelper & _ & Hflags).
  split.
  - apply Hhelper. discriminate.
  - apply (Hflags camera nativeBoolReply {["DynDNS" := IBool true]});
      [reflexivity|vm_compute; reflexivity|].
    intros s. vm_compute. discriminate.
Defined.

(** ** Further properties of the coercion helpers *)

Lemma lowerByte_true_letters (c : ascii) :
  (lowerByte c = "t"%char ↔ c = "t"%char ∨ c = "T"%char) ∧
  (lowerByte c = "r"%char ↔ c = "r"%char ∨ c = "R"%char) ∧
  (lowerByte c = "u"%char ↔ c = "u"%char ∨ c = "U"%char) ∧
  (lowerByte c = "e"%char ↔ c = "e"%char ∨ c = "E"%char).
Proof.
  destruct c as [[] [] [] [] [] [] [] []]; vm_compute;
    repeat split; try (intros [H|H]); try intros H; try discriminate; auto.
Qed.

(** X1. [interfaceToBool] accepts exactly the sixteen spellings of ["true"]
    in mixed case: a string of four bytes, [t] or [T], then [r] or [R],
    [u] or [U], [e] or [E].  Nothing is trimmed, so padded or longer
    strings, and all nodes that are not strings, coerce to [false]. *)
Theorem interfaceToBool_true_spellings src :
  interfaceToBool src = true ↔
  ∃ a b c d : ascii,
    src = IStr (String a (String b (String c (String d "")))) ∧
    (a = "t" ∨ a = "T")%char ∧ (b = "r" ∨ b = "R")%char ∧
    (c = "u" ∨ c = "U")%char ∧ (d = "e" ∨ d = "E")%char.
Proof.
  rewrite interfaceToBool_true_iff. split.
  - destruct src as [| | |s| |]; try done. cbn.
    destruct s as [|a [|b [|c [|d [|x s]]]]]; try done.
    cbn. intros [= Ha Hb Hc Hd].
    exists a, b, c, d. split; [done|].
    repeat split; by apply lowerByte_true_letters.
  - intros (a & b & c & d & -> & Ha & Hb & Hc & Hd). cbn.
    apply lowerByte_true_letters in Ha, Hb, Hc, Hd. by rewrite Ha, Hb, Hc, Hd.
Qed.

Lemma interfaceToBool_true_spellings_witness :
  interfaceToBool (IStr "tRUe") = true ∧ interfaceToBool (IStr "true ") = false.
Proof.
  split.
  - apply (proj2 (interfaceToBool_true_spellings (IStr "tRUe"))).
    exists "t"%char, "R"%char, "U"%char, "e"%char.
    repeat split; auto.
  - destruct (interfaceToBool (IStr "true ")) eqn:Hb; [|reflexivity].
    apply (proj1 (interfaceToBool_true_spellings (IStr "true "))) in Hb
      as (a & b & c & d & Heq & _). discriminate Heq.
Defined.

(** ** Further properties of [GetCapabilities] *)

Lemma GetCapabilities_transport_error SendRequest rangeOrder device response err :
  SendRequest capabilitiesRequest (XAddr device) = (response, Some err) →
  GetCapabilities SendRequest rangeOrder device = (DeviceCapabilities_zero, Some err).
Proof.
  intros Hsend. unfold GetCapabilities, capabilitiesRequest in *.
  cbv zeta. by rewrite Hsend.
Qed.

(** X2. [GetCapabilities] is all or nothing.  It returns a nil error exactly
    when the transport and the three mandatory look-ups all succeed; with
    any error the aggregate is the zero value; and an error of the transport
    is returned as it is, whatever the reply holds. *)
Theorem GetCapabilities_all_or_nothing SendRequest rangeOrder device :
  let reply := SendRequest capabilitiesRequest (XAddr device) in
  let result := GetCapabilities SendRequest rangeOrder device in
  (result.2 = nil ↔
     reply.2 = nil ∧
     (ValueForPath reply.1 networkPath).2 = nil ∧
     (ValueForPath reply.1 eventsPath).2 = nil ∧
     (ValueForPath reply.1 streamingPath).2 = nil) ∧
  (result.2 ≠ nil → result.1 = DeviceCapabilities_zero) ∧
  (reply.2 ≠ nil → result.2 = reply.2).
Proof.
  cbv zeta.
  destruct (SendRequest capabilitiesRequest (XAddr device))
    as [response [err|]] eqn:Hsend; cbn [fst snd].
  - rewrite (GetCapabilities_transport_error _ rangeOrder _ _ _ Hsend). cbn.
    split; [split; [done|by intros [? _]]|done].
  - split; [|split; [|done]].
    + rewrite (GetCapabilities_error_iff _ rangeOrder device response Hsend).
      split; [done|by intros [_ ?]].
    + rewrite (GetCapabilities_run _ rangeOrder device response Hsend).
      destruct (ValueForPath response networkPath) as [n [errN|]]; [done|].
      destruct (ValueForPath response eventsPath) as [e [errE|]]; [done|].
      by destruct (ValueForPath response streamingPath) as [s [errS|]].
Qed.

Lemma GetCapabilities_all_or_nothing_witness :
  (GetCapabilities (refuse (TransportError "timeout")) forwardOrder camera).2 =
    Some (TransportError "timeout") ∧
  (GetCapabilities (refuse (TransportError "timeout")) forwardOrder camera).1 =
    DeviceCapabilities_zero.
Proof.
  destruct (GetCapabilities_all_or_nothing (refuse (TransportError "timeout"))
              forwardOrder camera) as (_ & Hzero & Herr).
  split.
  - apply Herr. discriminate.
  - apply Hzero. rewrite Herr; discriminate.
Defined.

(** X6. The iteration order can only show in [Events] and [Streaming]: for
    any two admissible orders the error, [Network] (its [Extension]
    included) and [PTZ] are the same, collisions or not. *)
Theorem GetCapabilities_order_free_fields SendRequest order1 order2 device :
  admissible order1 → admissible order2 →
  (GetCapabilities SendRequest order1 device).2 =
  (GetCapabilities SendRequest order2 device).2 ∧
  Network (GetCapabilities SendRequest order1 device).1 =
  Network (GetCapabilities SendRequest order2 device).1 ∧
  PTZ (GetCapabilities SendRequest order1 device).1 =
  PTZ (GetCapabilities SendRequest order2 device).1.
Proof.
  intros Hadm1 Hadm2.
  destruct (SendRequest capabilitiesRequest (XAddr device))
    as [response [err|]] eqn:Hsend.
  - by rewrite !(GetCapabilities_transport_error _ _ _ _ _ Hsend).
  - rewrite !(GetCapabilities_run _ _ device response Hsend).
    destruct (ValueForPath response networkPath) as [n [errN|]]; [done|].
    destruct (ValueForPath response eventsPath) as [e [errE|]]; [done|].
    destruct (ValueForPath response streamingPath) as [s [errS|]]; [done|].
    cbn. by rewrite (networkOf_order order1 order2 Hadm1 Hadm2).
Qed.

Lemma GetCapabilities_order_free_fields_witness :
  Network (GetCapabilities (deliver collidingReply) forwardOrder camera).1 =
  Network (GetCapabilities (deliver collidingReply) backwardOrder camera).1.
Proof.
  apply (GetCapabilities_order_free_fields (deliver collidingReply)
           forwardOrder backwardOrder camera
           forwardOrder_admissible backwardOrder_admissible).
Defined.

(** ** Further facts about the key renames *)

Lemma Contains_cons c rest substr :
  Contains (String c rest) substr =
  String.prefix substr (String c rest) || Contains rest substr.
Proof. reflexivity. Qed.

Lemma prefix_underscore c rest :
  String.prefix "_" (String c rest) = bool_decide (c = "_"%char).
Proof.
  cbn [String.prefix]. destruct (ascii_dec "_" c) as [<-|Hc].
  - by rewrite prefix_empty.
  - by rewrite bool_decide_eq_false_2 by congruence.
Qed.

Lemma replaceScan_underscore_clean n k :
  (n < 0)%Z → Contains (replaceScan "_" " " n 0 k) "_" = false.
Proof.
  revert n. induction k as [|c rest IH]; intros n Hn; [done|].
  cbn [replaceScan]. destruct (Z.eqb_spec n 0) as [->|_]; [lia|].
  rewrite prefix_underscore. cbn [String.length Nat.sub].
  case_bool_decide as Hc.
  - change (" " +:+ ?x) with (String " " x).
    rewrite Contains_cons, prefix_underscore, IH by lia. done.
  - rewrite Contains_cons, prefix_underscore, IH by lia.
    by rewrite bool_decide_eq_false_2 by done.
Qed.

Lemma replaceScan_underscore_absent n k :
  (n < 0)%Z → Contains k "_" = false → replaceScan "_" " " n 0 k = k.
Proof.
  revert n. induction k as [|c rest IH]; intros n Hn Hk; [done|].
  rewrite Contains_cons in Hk. apply orb_false_elim in Hk as [Hhd Htl].
  cbn [replaceScan]. destruct (Z.eqb_spec n 0) as [->|_]; [lia|].
  rewrite Hhd. f_equal. by apply IH.
Qed.

Lemma Replace_underscore_clean k : Contains (Replace k "_" " " (-1)) "_" = false.
Proof. rewrite Replace_underscore_scan. by apply replaceScan_underscore_clean. Qed.

Lemma Replace_underscore_absent k :
  Contains k "_" = false → Replace k "_" " " (-1) = k.
Proof. rewrite Replace_underscore_scan. by apply replaceScan_underscore_absent. Qed.

Lemma Replace_WS_scan k : Replace k "WS" "" 1 = replaceScan "WS" "" 1 0 k.
Proof. reflexivity. Qed.

Lemma Replace_WS_prefix s : Replace ("WS" +:+ s) "WS" "" 1 = s.
Proof.
  rewrite Replace_WS_scan. change ("WS" +:+ s) with (String "W" (String "S" s)).
  cbn. rewrite prefix_empty. by destruct s.
Qed.

Lemma Replace_WS_absent k : Contains k "WS" = false → Replace k "WS" "" 1 = k.
Proof.
  rewrite Replace_WS_scan. induction k as [|c rest IH]; intros Hk; [done|].
  rewrite Contains_cons in Hk. apply orb_false_elim in Hk as [Hhd Htl].
  cbn [replaceScan]. cbn [Z.eqb]. rewrite Hhd. f_equal. by apply IH.
Qed.

Lemma ToLower_WS_prefix s : ToLower ("WS" +:+ s) ≠ "xaddr".
Proof. done. Qed.

(** The number of entries a loop can add. *)
Lemma foldl_assign_size (entry : string → iface → option (string * bool))
    (body : gmap string bool → string → iface → gmap string bool)
    (l : list (string * iface)) (init : gmap string bool) :
  (∀ acc k v, body acc k v = assign (entry k v) acc) →
  (size (foldl (λ acc kv, body acc kv.1 kv.2) init l) ≤ size init + length l)%nat.
Proof.
  intros Hbody. revert init.
  induction l as [|[k v] l IH]; intros init; cbn; [lia|].
  etrans; [apply IH|]. rewrite Hbody. unfold assign.
  destruct (entry k v) as [[dk b]|]; [|lia].
  rewrite map_size_insert. destruct (init !! dk); cbn; lia.
Qed.

Section MoreShape.

Variable SendRequest : SOAP → string → Map * error.
Variable rangeOrder : gmap string iface → list (string * iface).
Hypothesis rangeOrder_admissible : admissible rangeOrder.

Local Abbreviation GetCaps := (GetCapabilities SendRequest rangeOrder).

Lemma length_rangeOrder m : length (rangeOrder m) = size m.
Proof. by rewrite (rangeOrder_admissible m), length_map_to_list. Qed.

Lemma extensionOf_fmap m :
  extensionOf rangeOrder (IMap m) = interfaceToBool <$> m.
Proof.
  apply map_eq. intros k. rewrite lookup_fmap.
  destruct (m !! k) as [v|] eqn:Hk; cbn.
  - by apply extensionOf_agreed.
  - destruct (extensionOf rangeOrder (IMap m) !! k) as [b|] eqn:Hb; [|done].
    apply (extensionOf_lookup_Some _ rangeOrder_admissible) in Hb
      as (k' & v' & Hk' & [= -> _]). congruence.
Qed.

Lemma streamingOf_agreed m k v :
  m !! k = Some v →
  (∀ k' v', m !! k' = Some v' →
     Replace k' "_" " " (-1) = Replace k "_" " " (-1) →
     interfaceToBool v' = interfaceToBool v) →
  streamingOf rangeOrder (IMap m) !! Replace k "_" " " (-1) =
    Some (interfaceToBool v).
Proof.
  intros Hm Hagree.
  apply (foldl_assign_agreed _ _ streamingBody_assign _ k v); [|done|].
  - by apply elem_of_rangeOrder.
  - intros k' v' b' Hin [= Hdk <-]. apply (elem_of_rangeOrder _ rangeOrder_admissible) in Hin.
    by eapply Hagree.
Qed.

(** X3. On a successful call whose [StreamingCapabilities] branch is a
    mapping, the [Streaming] map holds exactly the wire keys with every
    underscore turned into a space, each with the coercion of a wire value
    of that name; no key of [Streaming] contains an underscore; and when no
    wire key contains one, [Streaming] is the wire mapping with its values
    coerced. *)
Theorem Streaming_rename device response caps mapStreamingCap :
  SendRequest capabilitiesRequest (XAddr device) = (response, nil) →
  GetCaps device = (caps, nil) →
  ValueForPath response streamingPath = (IMap mapStreamingCap, nil) →
  ∃ st, Streaming caps = Some st ∧
    (∀ dk b, st !! dk = Some b →
       ∃ k v, mapStreamingCap !! k = Some v ∧
              dk = Replace k "_" " " (-1) ∧ b = interfaceToBool v) ∧
    (∀ k v, mapStreamingCap !! k = Some v →
       is_Some (st !! Replace k "_" " " (-1))) ∧
    (∀ dk, is_Some (st !! dk) → Contains dk "_" = false) ∧
    ((∀ k, is_Some (mapStreamingCap !! k) → Contains k "_" = false) →
       st = interfaceToBool <$> mapStreamingCap).
Proof.
  intros Hsend Hcaps Hst.
  destruct (GetCapabilities_success_inv _ _ _ _ _ Hsend Hcaps)
    as (n & e & s & Hn & He & Hs & ->).
  rewrite Hst in Hs. injection Hs as <-.
  eexists. split; [reflexivity|].
  assert (∀ dk b, streamingOf rangeOrder (IMap mapStreamingCap) !! dk = Some b →
            ∃ k v, mapStreamingCap !! k = Some v ∧
                   dk = Replace k "_" " " (-1) ∧ b = interfaceToBool v) as Hfrom.
  { intros dk b Hdk.
    apply (streamingOf_lookup_Some _ rangeOrder_admissible) in Hdk
      as (k & v & Hk & [= <- <-]). by exists k, v. }
  split; [exact Hfrom|]. split; [|split].
  - intros k v Hk. by apply (streamingOf_stored _ rangeOrder_admissible _ k v).
  - intros dk [b Hb]. apply Hfrom in Hb as (k & v & _ & -> & _).
    apply Replace_underscore_clean.
  - intros Hclean. apply map_eq. intros k. rewrite lookup_fmap.
    destruct (mapStreamingCap !! k) as [v|] eqn:Hk; cbn.
    + rewrite <- (Replace_underscore_absent k) at 1 by eauto.
      apply streamingOf_agreed; [done|].
      intros k' v' Hk'. rewrite !Replace_underscore_absent by eauto.
      intros ->. congruence.
    + destruct (streamingOf rangeOrder (IMap mapStreamingCap) !! k) as [b|] eqn:Hb;
        [|done].
      apply Hfrom in Hb as (k' & v' & Hk' & Hdk & _).
      rewrite Replace_underscore_absent in Hdk by eauto. congruence.
Qed.

(** X4. On a successful call whose [Events] branch is a mapping: a wire key
    ["WS" ++ s] puts the key [s] into [Events]; a wire key without ["WS"]
    that does not lower-case to ["xaddr"] is kept as it is; and when every
    wire key is of that kind, [Events] is the wire mapping with its values
    coerced. *)
Theorem Events_prefix device response caps mapEventsCap :
  SendRequest capabilitiesRequest (XAddr device) = (response, nil) →
  GetCaps device = (caps, nil) →
  ValueForPath response eventsPath = (IMap mapEventsCap, nil) →
  ∃ ev, Events caps = Some ev ∧
    (∀ s, is_Some (mapEventsCap !! ("WS" +:+ s)) → is_Some (ev !! s)) ∧
    (∀ k, is_Some (mapEventsCap !! k) → ToLower k ≠ "xaddr" →
       Contains k "WS" = false → is_Some (ev !! k)) ∧
    ((∀ k, is_Some (mapEventsCap !! k) →
        ToLower k ≠ "xaddr" ∧ Contains k "WS" = false) →
       ev = interfaceToBool <$> mapEventsCap).
Proof.
  intros Hsend Hcaps Hev.
  destruct (GetCapabilities_success_inv _ _ _ _ _ Hsend Hcaps)
    as (n & e & s & Hn & He & Hs & ->).
  rewrite Hev in He. injection He as <-.
  eexists. split; [reflexivity|]. split; [|split].
  - intros s' [v Hk].
    apply (eventsOf_stored _ rangeOrder_admissible _ ("WS" +:+ s') v _
             (interfaceToBool v)); [done|].
    apply eventsEntry_Some. split; [apply ToLower_WS_prefix|].
    by rewrite Replace_WS_prefix.
  - intros k [v Hk] Hlow Hws.
    apply (eventsOf_stored _ rangeOrder_admissible _ k v _ (interfaceToBool v));
      [done|].
    apply eventsEntry_Some. by rewrite Replace_WS_absent.
  - intros Hplain. apply map_eq. intros k. rewrite lookup_fmap.
    destruct (mapEventsCap !! k) as [v|] eqn:Hk; cbn.
    + destruct (Hplain k) as [Hlow Hws]; [by eauto|].
      apply (eventsOf_agreed _ rangeOrder_admissible _ k v).
      * done.
      * apply eventsEntry_Some. by rewrite Replace_WS_absent.
      * intros k' v' b' Hk' Hentry.
        apply eventsEntry_Some in Hentry as (_ & Hdk & ->).
        destruct (Hplain k') as [_ Hws']; [by eauto|].
        rewrite Replace_WS_absent in Hdk by done. congruence.
    + destruct (eventsOf rangeOrder (IMap mapEventsCap) !! k) as [b|] eqn:Hb;
        [|done].
      apply (eventsOf_lookup_Some _ rangeOrder_admissible) in Hb
        as (k' & v' & Hk' & Hentry).
      apply eventsEntry_Some in Hentry as (_ & Hdk & _).
      destruct (Hplain k') as [_ Hws']; [by eauto|].
      rewrite Replace_WS_absent in Hdk by done. congruence.
Qed.

(** X5. A successful call never returns more capabilities than the reply
    holds: [Events] and [Streaming] have at most as many entries as their
    wire mappings, and [Network.Extension] has exactly the keys of the wire
    [Extension] mapping. *)
Theorem capability_counts device response caps :
  SendRequest capabilitiesRequest (XAddr device) = (response, nil) →
  GetCaps device = (caps, nil) →
  ∃ net ev st,
    Extension (Network caps) = net ∧ Events caps = Some ev ∧
    Streaming caps = Some st ∧
    (∀ m, ValueForPath response eventsPath = (IMap m, nil) → (size ev ≤ size m)%nat) ∧
    (∀ m, ValueForPath response streamingPath = (IMap m, nil) → (size st ≤ size m)%nat) ∧
    (∀ m me, ValueForPath response networkPath = (IMap m, nil) →
       m !! "Extension" = Some (IMap me) →
       ∃ ext, net = Some ext ∧ dom ext = dom me).
Proof.
  intros Hsend Hcaps.
  destruct (GetCapabilities_success_inv _ _ _ _ _ Hsend Hcaps)
    as (n & e & s & Hn & He & Hs & ->).
  do 3 eexists. do 3 (split; [reflexivity|]). split; [|split].
  - intros m Hev. rewrite Hev in He. injection He as <-.
    etrans; [apply (foldl_assign_size _ _ _ _ eventsBody_assign)|].
    rewrite map_size_empty, length_rangeOrder. lia.
  - intros m Hst. rewrite Hst in Hs. injection Hs as <-.
    etrans; [apply (foldl_assign_size _ _ _ _ streamingBody_assign)|].
    rewrite map_size_empty, length_rangeOrder. lia.
  - intros m me Hnet Hext. rewrite Hnet in Hn. injection Hn as <-.
    eexists. split; [reflexivity|].
    rewrite (lookup_total_Some _ _ _ Hext), extensionOf_fmap.
    apply dom_fmap_L.
Qed.

End MoreShape.

(** ** The other endpoints *)

Lemma ValueForPathString_string mv path s :
  ValueForPath mv path = (IStr s, nil) → ValueForPathString mv path = (s, nil).
Proof. intros H. unfold ValueForPathString. by rewrite H. Qed.

Lemma ValueForPathString_missing mv path :
  (ValueForPath mv path).2 ≠ nil → ValueForPathString mv path = ("", nil).
Proof.
  intros H. unfold ValueForPathString.
  by destruct (ValueForPath mv path) as [[] [err|]].
Qed.

Lemma ValueForPathString_nil mv path : (ValueForPathString mv path).2 = nil.
Proof.
  unfold ValueForPathString. by destruct (ValueForPath mv path) as [[] [err|]].
Qed.

Section Others.

Variable SendRequest : SOAP → string → Map * error.
Variable ValuesForPath : Map → string → list iface * error.
Variable JsonIndent : Map → string → string → string * error.

Lemma GetHostname_run device response :
  SendRequest hostnameRequest (XAddr device) = (response, nil) →
  GetHostname SendRequest device =
    match ValueForPath response hostnamePath with
    | (_, Some err) => (Hostname.zero, Some err)
    | (IMap mapHostInfo, None) =>
        ({| Hostname.Name := interfaceToString (mapHostInfo !!! "Name");
            Hostname.FromDHCP := interfaceToBool (mapHostInfo !!! "FromDHCP");
            Hostname.Extension := interfaceToString (mapHostInfo !!! "Extension") |},
         nil)
    | (_, None) => (Hostname.zero, nil)
    end.
Proof.
  intros Hsend. unfold GetHostname, hostnameRequest, hostnamePath in *.
  cbv zeta. rewrite Hsend.
  by destruct (ValueForPath response _) as [[] [err|]].
Qed.

Lemma interfaceToString_lookup (m : gmap string iface) k :
  (∀ s, m !! k = Some (IStr s) → interfaceToString (m !!! k) = s) ∧
  ((∀ s, m !! k ≠ Some (IStr s)) → interfaceToString (m !!! k) = "").
Proof.
  split.
  - intros s Hk. by rewrite (lookup_total_Some _ _ _ Hk).
  - intros Hk. by apply interfaceToString_not_string, lookup_total_not_string.
Qed.

(** X7. After a successful transport [GetHostname] fails exactly when the
    [HostnameInformation] path is missing, and then returns the zero value.
    A node there that is not a mapping gives the zero value with no error.
    For a mapping, [Name] and [Extension] are the strings found under those
    keys, empty when the entry is absent or not a string, and [FromDHCP] is
    [true] exactly when its entry is a string that lower-cases to
    ["true"]. *)
Theorem GetHostname_result device response :
  SendRequest hostnameRequest (XAddr device) = (response, nil) →
  let result := GetHostname SendRequest device in
  (result.2 = nil ↔ (ValueForPath response hostnamePath).2 = nil) ∧
  (result.2 ≠ nil → result.1 = Hostname.zero) ∧
  (∀ node, ValueForPath response hostnamePath = (node, nil) →
     (∀ m, node ≠ IMap m) → result = (Hostname.zero, nil)) ∧
  (∀ m, ValueForPath response hostnamePath = (IMap m, nil) →
     (∀ s, m !! "Name" = Some (IStr s) → Hostname.Name result.1 = s) ∧
     ((∀ s, m !! "Name" ≠ Some (IStr s)) → Hostname.Name result.1 = "") ∧
     (Hostname.FromDHCP result.1 = true ↔
        ∃ s, m !! "FromDHCP" = Some (IStr s) ∧ ToLower s = "true") ∧
     (∀ s, m !! "Extension" = Some (IStr s) → Hostname.Extension result.1 = s) ∧
     ((∀ s, m !! "Extension" ≠ Some (IStr s)) → Hostname.Extension result.1 = "")).
Proof.
  intros Hsend. cbv zeta. rewrite (GetHostname_run device response Hsend).
  split; [|split; [|split]].
  - by destruct (ValueForPath response hostnamePath) as [[] [err|]].
  - by destruct (ValueForPath response hostnamePath) as [[] [err|]].
  - intros node -> Hshape. destruct node; try done. by destruct (Hshape m).
  - intros m ->. cbn.
    split; [apply interfaceToString_lookup|].
    split; [apply interfaceToString_lookup|].
    split; [|split; apply interfaceToString_lookup].
    rewrite interfaceToBool_true_iff. split.
    + intros Hlow. rewrite lookup_total_alt in Hlow.
      destruct (m !! "FromDHCP") as [[| | |s| |]|]; try done. by exists s.
    + intros (s & Hs & Hlow). by rewrite (lookup_total_Some _ _ _ Hs).
Qed.

Lemma foldl_scopes (nodes : list iface) (init : list string) :
  foldl (λ (scopes : list string) (ifaceScope : iface),
           match ifaceScope with
           | IMap mapScope =>
               let scope := interfaceToString (mapScope !!! "ScopeItem") in
               (scopes ++ [scope])%list
           | _ => scopes
           end) init nodes = (init ++ omap scopeOf nodes)%list.
Proof.
  revert init. induction nodes as [|node nodes IH]; intros init; cbn.
  - by rewrite app_nil_r.
  - rewrite IH. destruct node; cbn; try done. by rewrite <- app_assoc.
Qed.

(** X8. After a successful transport [GetScopes] returns the error of
    [ValuesForPath] with a nil slice, or else a slice that is not nil, even
    when empty: it lists, in the order of the nodes, the [ScopeItem] string
    of every node that is a mapping (the empty string when a mapping has no
    string there) and skips every other node, so it is never longer than
    the list of nodes. *)
Theorem GetScopes_result device response :
  SendRequest scopesRequest (XAddr device) = (response, nil) →
  let found := ValuesForPath response scopesPath in
  let result := GetScopes SendRequest ValuesForPath device in
  (∀ err, found.2 = Some err → result = (None, Some err)) ∧
  (found.2 = nil →
     result = (Some (omap scopeOf found.1), nil) ∧
     (length (omap scopeOf found.1) ≤ length found.1)%nat ∧
     (Forall (λ node, ∃ m, node = IMap m) found.1 →
        length (omap scopeOf found.1) = length found.1)).
Proof.
  intros Hsend. cbv zeta. unfold GetScopes, scopesRequest, scopesPath in *.
  cbv zeta. rewrite Hsend.
  destruct (ValuesForPath response _) as [nodes [err|]]; cbn [fst snd].
  - split; [by intros ? [= ->]|done].
  - split; [done|]. intros _. split; [by rewrite foldl_scopes|]. split.
    + induction nodes as [|[] nodes IH]; cbn; lia.
    + induction 1 as [|node nodes [m ->] _ IH]; cbn; [done|]. by rewrite IH.
Qed.

(** X9. [GetSystemDateAndTime] and [GetDiscoveryMode] drop the error of
    their look-up: after a successful transport they never return an error;
    they return the string found at their path, and the empty string when
    the path is missing. *)
Theorem single_string_endpoints_tolerant device response :
  (SendRequest systemDateAndTimeRequest (XAddr device) = (response, nil) →
   let result := GetSystemDateAndTime SendRequest device in
   result.2 = nil ∧
   (∀ s, ValueForPath response systemDateAndTimePath = (IStr s, nil) →
      result.1 = s) ∧
   ((ValueForPath response systemDateAndTimePath).2 ≠ nil → result.1 = "")) ∧
  (SendRequest discoveryModeRequest (XAddr device) = (response, nil) →
   let result := GetDiscoveryMode SendRequest device in
   result.2 = nil ∧
   (∀ s, ValueForPath response discoveryModePath = (IStr s, nil) →
      result.1 = s) ∧
   ((ValueForPath response discoveryModePath).2 ≠ nil → result.1 = "")).
Proof.
  split; intros Hsend; cbv zeta.
  - unfold GetSystemDateAndTime, systemDateAndTimeRequest, systemDateAndTimePath in *.
    cbv zeta. rewrite Hsend. split; [|split].
    + by destruct (ValueForPathString response _).
    + intros s Hs. by rewrite (ValueForPathString_string _ _ _ Hs).
    + intros Hmiss. by rewrite (ValueForPathString_missing _ _ Hmiss).
  - unfold GetDiscoveryMode, discoveryModeRequest, discoveryModePath in *.
    cbv zeta. rewrite Hsend. split; [|split].
    + by destruct (ValueForPathString response _).
    + intros s Hs. by rewrite (ValueForPathString_string _ _ _ Hs).
    + intros Hmiss. by rewrite (ValueForPathString_missing _ _ Hmiss).
Qed.

(** X10. [GetNetworkInterfaces] sends its own request but reads the path of
    the DNS reply: after a successful transport it returns the string at
    [Envelope.Body.GetDNSResponse.DNSInformation], and the empty string when
    the reply has no such path, with a nil error either way.  It writes the
    reply to the standard output once, and on a reply that the transport
    also gives to the DNS request it returns and writes what [GetDNS]
    does. *)
Theorem GetNetworkInterfaces_reads_DNS device response :
  SendRequest networkInterfacesRequest (XAddr device) = (response, nil) →
  let result := GetNetworkInterfaces SendRequest JsonIndent device in
  result.1.2 = nil ∧
  (∀ s, ValueForPath response dnsPath = (IStr s, nil) → result.1.1 = s) ∧
  ((ValueForPath response dnsPath).2 ≠ nil → result.1.1 = "") ∧
  result.2 = [(JsonIndent response "" "    ").1] ∧
  (SendRequest dnsRequest (XAddr device) = (response, nil) →
   result = GetDNS SendRequest JsonIndent device).
Proof.
  intros Hsend. cbv zeta.
  unfold GetNetworkInterfaces, GetDNS, networkInterfacesRequest, dnsRequest,
    dnsPath in *.
  cbv zeta. rewrite Hsend.
  split; [|split; [|split; [|split]]].
  - by destruct (JsonIndent response "" "    "), (ValueForPathString response _).
  - intros s Hs. rewrite (ValueForPathString_string _ _ _ Hs).
    by destruct (JsonIndent response "" "    ").
  - intros Hmiss. rewrite (ValueForPathString_missing _ _ Hmiss).
    by destruct (JsonIndent response "" "    ").
  - by destruct (JsonIndent response "" "    "), (ValueForPathString response _).
  - by intros ->.
Qed.

(** X11. Every endpoint hands an error of the transport back as it is,
    with the zero value of its result (a nil slice for [GetScopes]), and
    the two endpoints that print write nothing. *)
Theorem transport_error_returned rangeOrder device err :
  (∀ soap, (SendRequest soap (XAddr device)).2 = Some err) →
  GetSystemDateAndTime SendRequest device = ("", Some err) ∧
  GetCapabilities SendRequest rangeOrder device = (DeviceCapabilities_zero, Some err) ∧
  GetDiscoveryMode SendRequest device = ("", Some err) ∧
  GetScopes SendRequest ValuesForPath device = (None, Some err) ∧
  GetHostname SendRequest device = (Hostname.zero, Some err) ∧
  GetDNS SendRequest JsonIndent device = ("", Some err, []) ∧
  GetNetworkInterfaces SendRequest JsonIndent device = ("", Some err, []).
Proof.
  intros Hfail.
  unfold GetSystemDateAndTime, GetCapabilities, GetDiscoveryMode, GetScopes,
    GetHostname, GetDNS, GetNetworkInterfaces.
  cbv zeta.
  repeat split;
    match goal with
    | |- context [SendRequest ?soap (XAddr device)] =>
        specialize (Hfail soap);
        destruct (SendRequest soap (XAddr device)) as [response [err'|]];
        cbn in Hfail; congruence
    end.
Qed.

End Others.

(** ** The further properties at concrete replies *)

Lemma Streaming_rename_witness :
  ∃ st,
    Streaming (GetCapabilities (deliver (replyOf scenario)) forwardOrder camera).1
      = Some st ∧
    is_Some (st !! "RTP TCP") ∧ Contains "RTP TCP" "_" = false.
Proof.
  destruct (Streaming_rename (deliver (replyOf scenario)) forwardOrder
              forwardOrder_admissible camera (replyOf scenario)
              (GetCapabilities (deliver (replyOf scenario)) forwardOrder camera).1
              scenarioStreaming)
    as (st & Hst & _ & Hto & Hclean & _); try (vm_compute; reflexivity).
  exists st. split; [exact Hst|].
  assert (is_Some (st !! "RTP TCP")) as Hkey.
  { apply (Hto "RTP_TCP" (IStr "true")). vm_compute; reflexivity. }
  split; [exact Hkey|]. exact (Hclean "RTP TCP" Hkey).
Defined.

Lemma Events_prefix_witness :
  ∃ ev,
    Events (GetCapabilities (deliver (replyOf scenario)) forwardOrder camera).1
      = Some ev ∧
    is_Some (ev !! "PullPoint").
Proof.
  destruct (Events_prefix (deliver (replyOf scenario)) forwardOrder
              forwardOrder_admissible camera (replyOf scenario)
              (GetCapabilities (deliver (replyOf scenario)) forwardOrder camera).1
              scenarioEvents)
    as (ev & Hev & Hprefix & _); try (vm_compute; reflexivity).
  exists ev. split; [exact Hev|].
  apply (Hprefix "PullPoint"). vm_compute. eauto.
Defined.

Lemma capability_counts_witness :
  ∃ net ev st,
    Extension (Network (GetCapabilities (deliver (replyOf scenario)) forwardOrder
                          camera).1) = net ∧
    Events (GetCapabilities (deliver (replyOf scenario)) forwardOrder camera).1
      = Some ev ∧
    Streaming (GetCapabilities (deliver (replyOf scenario)) forwardOrder camera).1
      = Some st ∧
    (size ev ≤ size scenarioEvents)%nat ∧
    (size st ≤ size scenarioStreaming)%nat ∧
    ∃ ext, net = Some ext ∧
           dom ext = dom ({["Foo" := IStr "true"]} : gmap string iface).
Proof.
  destruct (capability_counts (deliver (replyOf scenario)) forwardOrder
              forwardOrder_admissible camera (replyOf scenario)
              (GetCapabilities (deliver (replyOf scenario)) forwardOrder camera).1)
    as (net & ev & st & Hnet & Hev & Hst & Hevents & Hstreaming & Hext);
    try (vm_compute; reflexivity).
  exists net, ev, st. do 3 (split; [assumption|]).
  split; [apply Hevents; vm_compute; reflexivity|].
  split; [apply Hstreaming; vm_compute; reflexivity|].
  apply (Hext scenarioNetwork); vm_compute; reflexivity.
Defined.

Lemma GetHostname_result_witness :
  Hostname.Name (GetHostname (deliver hostnameReply) camera).1 = "cam-42" ∧
  Hostname.FromDHCP (GetHostname (deliver hostnameReply) camera).1 = true ∧
  Hostname.Extension (GetHostname (deliver hostnameReply) camera).1 = "" ∧
  GetHostname (deliver scalarHostnameReply) camera = (Hostname.zero, nil).
Proof.
  destruct (GetHostname_result (deliver hostnameReply) camera hostnameReply eq_refl)
    as (_ & _ & _ & Hfields).
  destruct (Hfields (<["Name" := IStr "cam-42"]> (<["FromDHCP" := IStr "True"]>
                       {["Extension" := IMap ∅]})))
    as (Hname & _ & Hdhcp & _ & Hext); [vm_compute; reflexivity|].
  split; [apply Hname; vm_compute; reflexivity|].
  split; [apply Hdhcp; exists "True"; vm_compute; split; reflexivity|].
  split.
  - apply Hext. intros s. vm_compute. discriminate.
  - destruct (GetHostname_result (deliver scalarHostnameReply) camera
                scalarHostnameReply eq_refl) as (_ & _ & Hscalar & _).
    apply (Hscalar (IStr "cam-42")); [vm_compute; reflexivity|discriminate].
Defined.

Lemma GetScopes_result_witness :
  GetScopes (deliver emptyReply) (listing scopeNodes) camera =
    (Some [ "onvif://www.onvif.org/type/video_encoder"; "";
            "onvif://www.onvif.org/name/cam" ], nil).
Proof.
  destruct (GetScopes_result (deliver emptyReply) (listing scopeNodes) camera
              emptyReply eq_refl) as [_ Hfound].
  destruct (Hfound eq_refl) as [Hresult _]. exact Hresult.
Defined.

Lemma single_string_endpoints_tolerant_witness :
  GetSystemDateAndTime (deliver dateTimeReply) camera =
    ("2019-03-01T10:00:00Z", nil) ∧
  GetDiscoveryMode (deliver dateTimeReply) camera = ("", nil).
Proof.
  destruct (single_string_endpoints_tolerant (deliver dateTimeReply) camera
              dateTimeReply) as [Hdate Hmode].
  destruct (Hdate eq_refl) as (Hnil & Hfound & _).
  destruct (Hmode eq_refl) as (Hnil' & _ & Hmissing).
  split.
  - apply injective_projections; [|exact Hnil].
    apply Hfound. vm_compute; reflexivity.
  - apply injective_projections; [|exact Hnil'].
    apply Hmissing. vm_compute. discriminate.
Defined.

Lemma GetNetworkInterfaces_reads_DNS_witness :
  ValueForPath interfacesReply
    "Envelope.Body.GetNetworkInterfacesResponse.NetworkInterfaces" =
    (IStr "eth0", nil) ∧
  GetNetworkInterfaces (deliver interfacesReply) printer camera = ("", nil, ["{}"]) ∧
  GetNetworkInterfaces (deliver interfacesReply) printer camera =
    GetDNS (deliver interfacesReply) printer camera.
Proof.
  split; [vm_compute; reflexivity|].
  destruct (GetNetworkInterfaces_reads_DNS (deliver interfacesReply) printer camera
              interfacesReply eq_refl) as (Hnil & _ & Hmissing & Hout & Hsame).
  split; [|exact (Hsame eq_refl)].
  apply injective_projections; [|exact Hout].
  apply injective_projections; [|exact Hnil].
  apply Hmissing. vm_compute. discriminate.
Defined.

Lemma transport_error_returned_witness :
  GetScopes (refuse (TransportError "timeout")) (listing scopeNodes) camera =
    (None, Some (TransportError "timeout")) ∧
  GetDNS (refuse (TransportError "timeout")) printer camera =
    ("", Some (TransportError "timeout"), []).
Proof.
  destruct (transport_error_returned (refuse (TransportError "timeout"))
              (listing scopeNodes) printer forwardOrder camera
              (TransportError "timeout"))
    as (_ & _ & _ & Hscopes & _ & Hdns & _); [reflexivity|].
  split; [exact Hscopes|exact Hdns].
Defined.
